(** * The "not translated" check of [trans/checks/same.py]

    A shallow embedding of [SameCheck] and of the pattern matching it
    relies on, followed by the properties of the check.

    Strings are Rocq strings whose characters stand for the code points
    below 256 of a Python 2 [unicode] object; [len] is [String.length]. *)

From Stdlib Require Import Ascii String NArith Bool Arith Lia.
From stdpp Require Import base option gmap strings.

Local Open Scope string_scope.

(** ** Characters *)

Module Chars.

Definition code (c : ascii) : N := N_of_ascii c.

Definition between (lo hi : N) (c : ascii) : bool :=
  ((lo <=? code c) && (code c <=? hi))%N.

Definition shift (k : N) (c : ascii) : ascii := ascii_of_N (code c + k).

(** [unicode.isupper] / [unicode.islower] on one character: the
    categories Lu and Ll of the first 256 code points. *)
Definition is_upper (c : ascii) : bool :=
  between 65 90 c || (between 192 222 c && negb (code c =? 215)%N).

Definition is_lower (c : ascii) : bool :=
  between 97 122 c || (code c =? 170)%N || (code c =? 181)%N
  || (code c =? 186)%N || (between 223 255 c && negb (code c =? 247)%N).

(** [unicode.lower] on one character. *)
Definition lower (c : ascii) : ascii :=
  if is_upper c then shift 32 c else c.

(** The case folding of the [re] module without [re.UNICODE]: only the
    ASCII letters are folded. *)
Definition sre_lower (c : ascii) : ascii :=
  if between 65 90 c then shift 32 c else c.

Definition is_digit (c : ascii) : bool := between 48 57 c.

(** ASCII white space: space, [\t], [\n], [\v], [\f], [\r]. *)
Definition is_space (c : ascii) : bool :=
  (code c =? 32)%N || between 9 13 c.

Definition is_word (c : ascii) : bool :=
  between 97 122 c || between 65 90 c || is_digit c || (code c =? 95)%N.

End Chars.

(** ** Python string primitives *)

Module Py.

Fixpoint mem (c : ascii) (chars : string) : bool :=
  match chars with
  | EmptyString => false
  | String d rest => Ascii.eqb c d || mem c rest
  end.

Definition is_empty (s : string) : bool :=
  match s with EmptyString => true | String _ _ => false end.

(** [s.lower()] *)
Fixpoint lower (s : string) : string :=
  match s with
  | EmptyString => EmptyString
  | String c rest => String (Chars.lower c) (lower rest)
  end.

Fixpoint any (p : ascii -> bool) (s : string) : bool :=
  match s with
  | EmptyString => false
  | String c rest => p c || any p rest
  end.

(** [s.isupper()]: no lowercase character and at least one uppercase
    one. *)
Definition isupper (s : string) : bool :=
  negb (any Chars.is_lower s) && any Chars.is_upper s.

Fixpoint startswith (p s : string) : bool :=
  match p, s with
  | EmptyString, _ => true
  | String a p', String b s' => Ascii.eqb a b && startswith p' s'
  | String _ _, EmptyString => false
  end.

(** [sub in s] *)
Fixpoint contains (sub s : string) : bool :=
  startswith sub s ||
  match s with
  | EmptyString => false
  | String _ rest => contains sub rest
  end.

(** [s.lstrip(chars)], [s.rstrip(chars)] and [s.strip(chars)] *)
Fixpoint lstrip (chars s : string) : string :=
  match s with
  | EmptyString => EmptyString
  | String c rest => if mem c chars then lstrip chars rest else s
  end.

Fixpoint rstrip (chars s : string) : string :=
  match s with
  | EmptyString => EmptyString
  | String c rest =>
      let r := rstrip chars rest in
      if is_empty r && mem c chars then EmptyString else String c r
  end.

Definition strip (chars s : string) : string := rstrip chars (lstrip chars s).

(** [s.replace(old, new)] for a non-empty [old]: occurrences are taken
    from left to right and do not overlap; [skip] counts the characters
    of the occurrence being replaced that are still to be dropped. *)
Fixpoint replace_from (skip : nat) (old new s : string) : string :=
  match s with
  | EmptyString => EmptyString
  | String c rest =>
      match skip with
      | S k => replace_from k old new rest
      | O =>
          if startswith old s
          then new +:+ replace_from (Nat.pred (String.length old)) old new rest
          else String c (replace_from 0 old new rest)
      end
  end.

Definition replace (old new s : string) : string := replace_from 0 old new s.

End Py.

(** ** Regular expressions

    The fragment of Python's [re] syntax used by the patterns of this
    module, matched the way the backtracking engine matches: alternatives
    are tried from left to right, repetitions are greedy, and the first
    success is the match. *)

Module Re.

Inductive item : Type :=
| Lit (c : ascii)
| Range (lo hi : ascii)
| Digit
| NotSpace
| Word.

Inductive regex : Type :=
| Empty
| In_ (items : list item)
| Cat (r1 r2 : regex)
| Branch (r1 r2 : regex)
| Repeat (lo : nat) (hi : option nat) (r : regex)
| AtBeginning
| AtEnd.

(** A compiled pattern: the expression and its [re.IGNORECASE] flag. *)
Record pattern : Type := Pattern { expr : regex; ignorecase : bool }.

Definition item_matches (ic : bool) (i : item) (c : ascii) : bool :=
  let fold x := if ic then Chars.sre_lower x else x in
  match i with
  | Lit d => Ascii.eqb (fold c) (fold d)
  | Range lo hi =>
      Chars.between (Chars.code (fold lo)) (Chars.code (fold hi)) (fold c)
  | Digit => Chars.is_digit c
  | NotSpace => negb (Chars.is_space c)
  | Word => Chars.is_word c
  end.

Definition in_matches (ic : bool) (items : list item) (c : ascii) : bool :=
  existsb (fun i => item_matches ic i c) items.

(** Continuations of the matcher: what to do with the rest of the subject
    once a part of the pattern has matched. *)
Definition cont : Type := bool -> string -> option string.

(** May one more iteration still be tried? *)
Definition room (hi : option nat) : bool :=
  match hi with Some O => false | _ => true end.

Definition less (hi : option nat) : option nat :=
  match hi with Some n => Some (Nat.pred n) | None => None end.

Definition orelse {A} (x y : option A) : option A :=
  match x with Some _ => x | None => y end.

(** The greedy loop of a repetition: [body] matches one iteration, which
    has to consume input; [lo] iterations are still required and [hi] are
    still allowed. *)
Fixpoint repeat_loop
    (body : bool -> string -> cont -> option string) (k : cont)
    (fuel lo : nat) (hi : option nat) (bos : bool) (s : string)
    {struct fuel} : option string :=
  let stop := if Nat.eqb lo 0 then k bos s else None in
  match fuel with
  | O => stop
  | S fuel' =>
      if room hi
      then orelse
             (body bos s (fun bos' s' =>
                if (String.length s' <? String.length s)%nat
                then repeat_loop body k fuel' (Nat.pred lo) (less hi) bos' s'
                else None))
             stop
      else stop
  end.

(** [run ic r bos s k]: match [r] at the head of [s] and hand what is left
    to the continuation [k]; the result is what is left after the whole
    match. [bos] tells whether [s] starts at the beginning of the subject
    string. *)
Fixpoint run (ic : bool) (r : regex) (bos : bool) (s : string) (k : cont)
    {struct r} : option string :=
  match r with
  | Empty => k bos s
  | In_ items =>
      match s with
      | String c rest => if in_matches ic items c then k false rest else None
      | EmptyString => None
      end
  | Cat r1 r2 => run ic r1 bos s (fun bos' s' => run ic r2 bos' s' k)
  | Branch r1 r2 => orelse (run ic r1 bos s k) (run ic r2 bos s k)
  | Repeat lo hi r1 => repeat_loop (run ic r1) k (String.length s) lo hi bos s
  | AtBeginning => if bos then k bos s else None
  | AtEnd =>
      match s with
      | EmptyString => k bos s
      | String c EmptyString =>
          if Ascii.eqb c "010"%char then k bos s else None
      | _ => None
      end
  end.

Definition finish (_ : bool) (s : string) : option string := Some s.

(** [match_at p bos s]: what follows the match of [p] at the head of [s],
    if there is one. *)
Definition match_at (p : pattern) (bos : bool) (s : string) : option string :=
  run (ignorecase p) (expr p) bos s finish.

(** [search p bos s]: the leftmost match in [s], as the text before it,
    the text from its start, and the text after it. *)
Fixpoint search (p : pattern) (bos : bool) (s : string)
    : option (string * string * string) :=
  match match_at p bos s with
  | Some rest => Some (EmptyString, s, rest)
  | None =>
      match s with
      | EmptyString => None
      | String c s' =>
          match search p false s' with
          | Some (pre, from, rest) => Some (String c pre, from, rest)
          | None => None
          end
      end
  end.

(** [p.sub('', s)]: delete the matches of [p], found one after the other
    from left to right. After a match the scan resumes at its end, and one
    character further when the match was empty. *)
Fixpoint sub_from (fuel : nat) (p : pattern) (bos : bool) (s : string)
    : string :=
  match fuel with
  | O => s
  | S fuel' =>
      match search p bos s with
      | None => s
      | Some (pre, from, rest) =>
          if (String.length rest <? String.length from)%nat
          then pre +:+ sub_from fuel' p false rest
          else match rest with
               | EmptyString => pre
               | String c rest' => pre +:+ String c (sub_from fuel' p false rest')
               end
      end
  end.

Definition sub (p : pattern) (s : string) : string :=
  sub_from (S (String.length s)) p true s.

(** The scan after a match, on what is left of the subject. *)
Definition sub_rest (p : pattern) (s : string) : string :=
  sub_from (S (String.length s)) p false s.

(** [p] has no match anywhere in [s]. *)
Definition no_match (p : pattern) (s : string) : bool :=
  match search p true s with
  | None => true
  | Some _ => false
  end.

(** The pattern is anchored by [^] at its start, by [$] at its end. *)
Fixpoint starts_anchored (r : regex) : bool :=
  match r with
  | AtBeginning => true
  | Cat r1 _ => starts_anchored r1
  | _ => false
  end.

Fixpoint ends_anchored (r : regex) : bool :=
  match r with
  | AtEnd => true
  | Cat _ r2 => ends_anchored r2
  | _ => false
  end.

(** Pattern syntax. *)
Fixpoint lit (s : string) : regex :=
  match s with
  | EmptyString => Empty
  | String c EmptyString => In_ [Lit c]
  | String c rest => Cat (In_ [Lit c]) (lit rest)
  end.

Definition opt (r : regex) : regex := Repeat 0 (Some 1) r.
Definition star (r : regex) : regex := Repeat 0 None r.
Definition plus (r : regex) : regex := Repeat 1 None r.
Definition times (lo hi : nat) (r : regex) : regex := Repeat lo (Some hi) r.
Definition at_least (lo : nat) (r : regex) : regex := Repeat lo None r.

Fixpoint seq (rs : list regex) : regex :=
  match rs with
  | [] => Empty
  | [r] => r
  | r :: rest => Cat r (seq rest)
  end.

End Re.

(** ** The patterns of the module *)

Import Re.

Definition newline : string := String "010"%char EmptyString.
Definition carriage_return : string := String "013"%char EmptyString.
Definition double_quote : string := String "034"%char EmptyString.
Definition copyright_sign : string := String "169"%char EmptyString.

Definition alnum : list item := [Range "A" "Z"; Range "0" "9"].
Definition alnum_dash : list item := [Range "A" "Z"; Range "0" "9"; Lit "-"].

(** [(?:[A-Z0-9](?:[A-Z0-9-]{0,61}[A-Z0-9])?\.)+]
    [(?:[A-Z]{2,6}\.?|[A-Z0-9-]{2,}\.?)] *)
Definition dotted_host : regex :=
  Cat
    (plus (seq [In_ alnum;
                opt (Cat (times 0 61 (In_ alnum_dash)) (In_ alnum));
                lit "."]))
    (Branch
       (Cat (times 2 6 (In_ [Range "A" "Z"])) (opt (lit ".")))
       (Cat (at_least 2 (In_ alnum_dash)) (opt (lit ".")))).

(** [\d{1,3}\.\d{1,3}\.\d{1,3}\.\d{1,3}] *)
Definition dotted_quad : regex :=
  seq [times 1 3 (In_ [Digit]); lit "."; times 1 3 (In_ [Digit]); lit ".";
       times 1 3 (In_ [Digit]); lit "."; times 1 3 (In_ [Digit])].

Definition URL_RE : pattern :=
  Pattern
    (seq [AtBeginning;
          Branch (lit "http") (lit "ftp"); opt (lit "s"); lit "://";
          Branch dotted_host (Branch (lit "localhost") dotted_quad);
          opt (Cat (lit ":") (plus (In_ [Digit])));
          Branch (opt (lit "/"))
                 (Cat (In_ [Lit "/"; Lit "?"]) (plus (In_ [NotSpace])));
          AtEnd])
    true.

Definition HASH_RE : pattern :=
  Pattern
    (Cat (lit "#")
         (star (In_ [Range "A" "Z"; Range "a" "z"; Range "0" "9";
                     Lit "_"; Lit "-"])))
    false.

Definition DOMAIN_RE : pattern := Pattern dotted_host true.

(** We ignore some words which are usually not translated *)
Definition SAME_BLACKLIST : gset string :=
  list_to_set [
    "accelerator"; "action"; "actions"; "active"; "alarm"; "amazon"; "atom";
    "audio"; "auto"; "avatar"; "bitcoin"; "blog"; "bluetooth"; "bzip2";
    "chat"; "cm"; "copyright"; "csv"; "cvs"; "data"; "dbm"; "description";
    "dm"; "download"; "dpi"; "dummy"; "e-mail"; "eib"; "email"; "esperanto";
    "expert"; "export"; "fax"; "feeds"; "filter"; "firmware"; "flash";
    "flattr"; "fulltext"; "gammu"; "general"; "gettext"; "google"; "gib";
    "git"; "gtk"; "gzip"; "headset"; "hardware"; "help"; "horizontal"; "id";
    "in"; "irc"; "irda"; "imei"; "import"; "info"; "information"; "isbn";
    "jabber"; "kib"; "km"; "latex"; "layout"; "linux"; "lithium ion";
    "lithium polymer"; "ltr"; "ma"; "mah"; "mailbox"; "maildir"; "media";
    "model"; "monitor"; "motif"; "mib"; "mm"; "mv"; "n/a"; "name"; "nimh";
    "normal"; "null"; "ok"; "online"; "open document"; "operator";
    "orientation"; "pager"; "paypal"; "pdf"; "personal"; "pib"; "port";
    "position"; "python-gammu"; "program"; "proxy"; "pt"; "px"; "rebase";
    "reset"; "roadmap"; "rss"; "rtl"; "script"; "server"; "sim"; "smsc";
    "software"; "sql"; "standard"; "start"; "status"; "stop"; "style";
    "syndication"; "system"; "text"; "tib"; "ukolovnik"; "unicode";
    "vcalendar"; "vcard"; "version"; "vertical"; "video"; "wammu"; "web";
    "weblate"; "wiki"; "windows"; "www"; "xml"; "zip";
    (* Months are same in some languages *)
    "january"; "february"; "march"; "april"; "may"; "june"; "july";
    "august"; "september"; "october"; "november"; "december";
    "jan"; "feb"; "mar"; "apr"; "jun"; "jul"; "aug"; "sep"; "oct"; "nov";
    "dec"
  ].

(** ** The translation unit and the cache *)

(** Modelled from the spec: the translation unit, of which the check
    reads the format flags, a set of tags, and asks whether its language
    is one of the given codes. *)
Record Unit : Type := {
  flags : gset string;
  language_in : list string -> bool
}.

(** Modelled from the spec: [TargetCheck.is_language] of
    [trans/checks/base.py], the language-membership test of the unit. *)
Definition is_language (unit : Unit) (vals : list string) : bool :=
  language_in unit vals.

(** Modelled from the spec: [TargetCheck.get_cache] and
    [TargetCheck.set_cache] of [trans/checks/base.py], get and set by slot.
    The store holds the slots of the unit under check. *)
Definition get_cache (unit : Unit) (cache_slot : nat) (cache : gmap nat bool)
    : option bool :=
  cache !! cache_slot.

Definition set_cache (unit : Unit) (value : bool) (cache_slot : nat)
    (cache : gmap nat bool) : gmap nat bool :=
  <[cache_slot := value]> cache.

(** ** SameCheck *)

Module SameCheck.
Section Matchers.

(** The matchers imported from [trans.checks.format] and from
    [django.core.validators]. *)
Variables PYTHON_PRINTF_MATCH PHP_PRINTF_MATCH C_PRINTF_MATCH : pattern.
Variable email_re : pattern.

(** The local [regex] of [strip_format]: the matcher selected by the
    flags, if any. *)
Definition format_regex (flags : gset string) : option pattern :=
  if bool_decide ("python-format" ∈ flags) then Some PYTHON_PRINTF_MATCH
  else if bool_decide ("php-format" ∈ flags) then Some PHP_PRINTF_MATCH
  else if bool_decide ("c-format" ∈ flags) then Some C_PRINTF_MATCH
  else None.

Definition strip_format (msg : string) (flags : gset string) : string :=
  match format_regex flags with
  | Some regex => Re.sub regex msg
  | None => msg
  end.

(** Some html entities *)
Definition replace_entities (s : string) : string :=
  Py.replace "&rdquo;" double_quote
    (Py.replace "&ldquo;" double_quote
       (Py.replace "&rsaquo;" double_quote
          (Py.replace "&nbsp;" " " s))).

Definition TRIM_CHARS : string :=
  " ,./<>?;'\:" +:+ double_quote +:+ "|[]{}`~!@#$%^&*()-=_+0123456789"
  +:+ newline +:+ carriage_return.

Definition strip_string (msg : string) (flags : gset string) : string :=
  (* Strip format strings *)
  let stripped := strip_format msg flags in
  (* Remove email addresses *)
  let stripped := Re.sub email_re stripped in
  (* Strip full URLs *)
  let stripped := Re.sub URL_RE stripped in
  (* Strip hash tags / IRC channels *)
  let stripped := Re.sub HASH_RE stripped in
  (* Strip domain names/URLs *)
  let stripped := Re.sub DOMAIN_RE stripped in
  (* Remove some html entities *)
  let stripped := replace_entities stripped in
  (* Cleanup trailing/leading chars *)
  Py.strip TRIM_CHARS stripped.

Definition should_ignore (source : string) (unit : Unit) (cache_slot : nat)
    (cache : gmap nat bool) : bool * gmap nat bool :=
  (* Use cache if available *)
  match get_cache unit cache_slot cache with
  | Some result => (result, cache)
  | None =>
      (* Lower case source *)
      let lower_source := Py.lower source in
      let result :=
        (* Check special things like 1:4 1/2 or copyright *)
        if (String.length (Py.strip "0123456789:/,." source) <=? 1)%nat
           || Py.contains "(c) copyright" lower_source
           || Py.contains copyright_sign source
        then true
        else
          let stripped := strip_string lower_source (flags unit) in
          (* Ignore strings which don't contain any string to translate *)
          if bool_decide (stripped = "") then true
          (* Ignore words which are often same in foreigh language *)
          else if bool_decide (stripped ∈ SAME_BLACKLIST) then true
          else false in
      (* Store in cache *)
      (result, set_cache unit result cache_slot cache)
  end.

Definition check_single (source target : string) (unit : Unit)
    (cache_slot : nat) (cache : gmap nat bool) : bool * gmap nat bool :=
  (* English variants will have most things not translated *)
  if is_language unit ["en"] then (false, cache)
  (* One letter things are usually labels or decimal/thousand separators *)
  else if (String.length source <=? 1)%nat && (String.length target <=? 1)%nat
  then (false, cache)
  (* Probably shortcut *)
  else if Py.isupper source && Py.isupper target then (false, cache)
  else
    (* Check for ignoring *)
    let (ignore, cache') := should_ignore source unit cache_slot cache in
    if ignore then (false, cache')
    else (bool_decide (source = target), cache').

End Matchers.
End SameCheck.

(** ** Reference matchers

    Instances of the imported matchers, used to run the check on concrete
    inputs. Every general statement below holds for arbitrary matchers. *)

Module Reference.

(** Modelled from the spec: the placeholder matchers of
    [trans/checks/format.py], which is not part of the sources at hand. A
    printf-style placeholder: [%], flags, width, precision, length and
    conversion type; the Python flavour accepts a [(key)] and the PHP
    flavour an [n$] position after the [%]. *)
Definition printf_tail : regex :=
  seq [star (In_ [Lit "+"; Lit "#"; Lit "-"]);
       opt (plus (In_ [Digit]));
       opt (Cat (lit ".") (plus (In_ [Digit])));
       opt (Branch (lit "hh") (Branch (lit "h") (Branch (lit "l") (lit "ll"))));
       In_ [Word; Lit "%"]].

Definition PYTHON_PRINTF_MATCH : pattern :=
  Pattern
    (seq [lit "%"; opt (seq [lit "("; plus (In_ [Word]); lit ")"]); printf_tail])
    false.

Definition PHP_PRINTF_MATCH : pattern :=
  Pattern
    (seq [lit "%"; opt (Cat (plus (In_ [Digit])) (lit "$")); printf_tail])
    false.

Definition C_PRINTF_MATCH : pattern :=
  Pattern (Cat (lit "%") printf_tail) false.

(** The address pattern of [django.core.validators]: a dot-atom or a
    quoted string, [@], and a dotted host name, anchored at both ends. *)
Definition atext : list item :=
  [Lit "-"; Lit "!"; Lit "#"; Lit "$"; Lit "%"; Lit "&"; Lit "'"; Lit "*";
   Lit "+"; Lit "/"; Lit "="; Lit "?"; Lit "^"; Lit "_"; Lit "`"; Lit "{";
   Lit "}"; Lit "|"; Lit "~"; Range "0" "9"; Range "A" "Z"].

Definition email_re : pattern :=
  Pattern
    (seq [Branch
            (seq [AtBeginning; plus (In_ atext);
                  star (Cat (lit ".") (plus (In_ atext)))])
            (seq [AtBeginning; In_ [Lit "034"];
                  star (Branch
                          (In_ [Range "001" "008"; Lit "011"; Lit "012";
                                Range "014" "031"; Lit "!"; Range "#" "[";
                                Range "]" "127"])
                          (Cat (lit "\")
                               (In_ [Range "001" "009"; Lit "011"; Lit "012";
                                     Range "014" "127"])));
                  In_ [Lit "034"]]);
          lit "@";
          plus (seq [In_ alnum;
                     opt (Cat (times 0 61 (In_ alnum_dash)) (In_ alnum));
                     lit "."]);
          times 2 6 (In_ [Range "A" "Z"]); opt (lit "."); AtEnd])
    true.

Definition strip_string : string -> gset string -> string :=
  SameCheck.strip_string PYTHON_PRINTF_MATCH PHP_PRINTF_MATCH C_PRINTF_MATCH email_re.

Definition should_ignore
    : string -> Unit -> nat -> gmap nat bool -> bool * gmap nat bool :=
  SameCheck.should_ignore
    PYTHON_PRINTF_MATCH PHP_PRINTF_MATCH C_PRINTF_MATCH email_re.

Definition check_single
    : string -> string -> Unit -> nat -> gmap nat bool -> bool * gmap nat bool :=
  SameCheck.check_single
    PYTHON_PRINTF_MATCH PHP_PRINTF_MATCH C_PRINTF_MATCH email_re.

(** A French unit without format flags, one flagged [python-format], and
    an English unit. *)
Definition french : Unit :=
  {| flags := ∅; language_in := fun vals => bool_decide ("fr" ∈ vals) |}.

Definition french_python : Unit :=
  {| flags := {["python-format"]};
     language_in := fun vals => bool_decide ("fr" ∈ vals) |}.

Definition english : Unit :=
  {| flags := ∅; language_in := fun vals => bool_decide ("en" ∈ vals) |}.

(** A host name whose first label has 63 characters, after an [x]. *)
Definition long_label : string :=
  "bbbbbbbbbbbbbbbbbbbbbbbbbbbbbbbbbbbbbbbbbbbbbbbbbbbbbbbbbbbbbbb".

Definition long_host : string := "x" +:+ long_label +:+ ".cd..jk".

End Reference.

(** ** Characters a pattern cannot do without *)

Module Needs.

Definition forall_bool (p : bool -> bool) : bool := p true && p false.

(** [p] holds of each of the 256 characters. *)
Definition forall_ascii (p : ascii -> bool) : bool :=
  forall_bool (fun b0 => forall_bool (fun b1 => forall_bool (fun b2 =>
  forall_bool (fun b3 => forall_bool (fun b4 => forall_bool (fun b5 =>
  forall_bool (fun b6 => forall_bool (fun b7 =>
    p (Ascii b0 b1 b2 b3 b4 b5 b6 b7))))))))).

(** [s] holds none of the characters of [bad]. *)
Definition free_of (bad s : string) : bool :=
  negb (Py.any (fun c => Py.mem c bad) s).

(** [demands ic bad r]: by the shape of [r], every match of it consumes
    one of the characters of [bad]. *)
Fixpoint demands (ic : bool) (bad : string) (r : regex) : bool :=
  match r with
  | In_ items =>
      forall_ascii (fun c => Py.mem c bad || negb (in_matches ic items c))
  | Cat r1 r2 => demands ic bad r1 || demands ic bad r2
  | Branch r1 r2 => demands ic bad r1 && demands ic bad r2
  | Repeat lo _ r1 => negb (Nat.eqb lo 0) && demands ic bad r1
  | Empty | AtBeginning | AtEnd => false
  end.

(** A word that the steps of [strip_string] after the imported matchers
    leave as it is. *)
Definition untouched (w : string) : bool :=
  Re.no_match URL_RE w && Re.no_match HASH_RE w && Re.no_match DOMAIN_RE w
  && bool_decide (SameCheck.replace_entities w = w)
  && bool_decide (Py.strip SameCheck.TRIM_CHARS w = w)
  && bool_decide (Py.lower w = w).

End Needs.

(** ** What [sub] is to return

    [re.sub] replaces the leftmost non-overlapping occurrences of the
    pattern. [deleted p bos s out] says it for the empty replacement: in a
    scan of [s] from left to right, a character at which [p] does not
    match is kept; a match that is not empty is dropped, and the scan goes
    on behind it; at an empty match the character is kept. *)

Module ReSpec.

Inductive deleted (p : pattern) : bool -> string -> string -> Prop :=
| deleted_end bos :
    deleted p bos EmptyString EmptyString
| deleted_keep bos c s out :
    Re.match_at p bos (String c s) = None ->
    deleted p false s out ->
    deleted p bos (String c s) (String c out)
| deleted_match bos m rest out :
    Re.match_at p bos (m +:+ rest) = Some rest ->
    m <> EmptyString ->
    deleted p false rest out ->
    deleted p bos (m +:+ rest) out
| deleted_empty bos c s out :
    Re.match_at p bos (String c s) = Some (String c s) ->
    deleted p false s out ->
    deleted p bos (String c s) (String c out).

(** [out] is [s] without the matches of [p], and the only such string. *)
Definition removes (p : pattern) (s out : string) : Prop :=
  deleted p true s out
  /\ forall out', deleted p true s out' -> out' = out.

End ReSpec.

(** ** Upper case in unicode strings

    [unicode.isupper] on strings of arbitrary code points. The case
    properties of a code point come from the Unicode database of the
    interpreter: upper case, lower case and title case. *)

Module Unicode.

Record database : Type := {
  is_upper : N -> bool;
  is_lower : N -> bool;
  is_title : N -> bool
}.

(** The loop of [unicode.isupper]: a lower-case or title-case character
    ends it with [False]; [cased] records that an upper-case one was
    met. *)
Fixpoint isupper_loop (db : database) (cased : bool) (s : list N) : bool :=
  match s with
  | [] => cased
  | ch :: rest =>
      if is_lower db ch || is_title db ch then false
      else isupper_loop db (cased || is_upper db ch) rest
  end.

Definition isupper (db : database) (s : list N) : bool :=
  isupper_loop db false s.

(** The cased characters: upper case, lower case or title case. *)
Definition is_cased (db : database) (ch : N) : bool :=
  is_upper db ch || is_lower db ch || is_title db ch.

(** The code points of a string of this development. *)
Fixpoint codes (s : string) : list N :=
  match s with
  | EmptyString => []
  | String c rest => Chars.code c :: codes rest
  end.

(** [db] has, below 256, the case properties of [Chars]; no title-case
    letter lies there. *)
Definition below_256 (db : database) : Prop :=
  forall c : ascii,
    is_upper db (Chars.code c) = Chars.is_upper c
    /\ is_lower db (Chars.code c) = Chars.is_lower c
    /\ is_title db (Chars.code c) = false.

(** The 31 title-case letters: four Latin digraphs (U+01C5, U+01C8,
    U+01CB, U+01F2) and 27 Greek letters with iota subscript. *)
Definition title_case : list N :=
  [453; 456; 459; 498;
   8072; 8073; 8074; 8075; 8076; 8077; 8078; 8079;
   8088; 8089; 8090; 8091; 8092; 8093; 8094; 8095;
   8104; 8105; 8106; 8107; 8108; 8109; 8110; 8111;
   8124; 8140; 8188]%N.

(** A database with the case properties of the code points below 256
    and the title-case letters; it is used on concrete inputs only. *)
Definition reference : database :=
  {| is_upper := fun ch => (ch <? 256)%N && Chars.is_upper (ascii_of_N ch);
     is_lower := fun ch => (ch <? 256)%N && Chars.is_lower (ascii_of_N ch);
     is_title := fun ch => existsb (N.eqb ch) title_case |}.

End Unicode.

(** ** Properties of the string primitives *)

Module PyFacts.
Import Py.

Lemma lstrip_head chars s :
  lstrip chars s = EmptyString ∨
  ∃ c rest, lstrip chars s = String c rest ∧ mem c chars = false.
Proof.
  induction s as [|c rest IH]; simpl; [by left|].
  destruct (mem c chars) eqn:Hc; [exact IH|].
  right. by exists c, rest.
Qed.

Lemma rstrip_idem chars s : rstrip chars (rstrip chars s) = rstrip chars s.
Proof.
  induction s as [|c rest IH]; simpl; [done|].
  destruct (is_empty (rstrip chars rest) && mem c chars) eqn:Hc; simpl; [done|].
  by rewrite IH, Hc.
Qed.

Lemma lstrip_rstrip chars s :
  lstrip chars (rstrip chars (lstrip chars s)) = rstrip chars (lstrip chars s).
Proof.
  destruct (lstrip_head chars s) as [->|(c & rest & -> & Hc)]; [done|].
  simpl. rewrite Hc, andb_false_r. simpl. by rewrite Hc.
Qed.

Lemma strip_idem chars s : strip chars (strip chars s) = strip chars s.
Proof.
  unfold strip. by rewrite lstrip_rstrip, rstrip_idem.
Qed.

Lemma replace_absent old new s :
  contains old s = false → replace old new s = s.
Proof.
  unfold replace. induction s as [|c rest IH]; simpl; [done|].
  intros [H1 H2]%orb_false_iff.
  change (startswith old (String c rest) = false) in H1.
  destruct old as [|a old']; [done|].
  simpl in H1 |- *. rewrite H1. by rewrite IH.
Qed.

Lemma any_mem p s :
  any p s = true ↔ ∃ c, mem c s = true ∧ p c = true.
Proof.
  induction s as [|d rest IH]; simpl.
  - split; [done|]. by intros (c & ? & _).
  - rewrite orb_true_iff, IH. split.
    + intros [Hd|(c & Hc & Hp)].
      * exists d. by rewrite Ascii.eqb_refl.
      * exists c. by rewrite Hc, orb_true_r.
    + intros (c & [Hc|Hc]%orb_true_iff & Hp).
      * apply Ascii.eqb_eq in Hc as ->. by left.
      * right. by exists c.
Qed.

End PyFacts.

(** ** Properties of the matcher *)

Module ReFacts.
Import Re.

Abbreviation len := String.length (only parsing).

(** A successful run ends in a successful call of its continuation, on
    a subject that is not longer than the one it started with. *)
Lemma repeat_loop_calls (body : bool → string → cont → option string) (k : cont) :
  (∀ bos s (k' : cont) res,
     body bos s k' = Some res →
     ∃ bos' s', (len s' ≤ len s)%nat ∧ k' bos' s' = Some res) →
  ∀ fuel lo hi bos s res,
    repeat_loop body k fuel lo hi bos s = Some res →
    ∃ bos' s', (len s' ≤ len s)%nat ∧ k bos' s' = Some res.
Proof.
  intros Hbody fuel.
  assert (Hstop : ∀ lo bos s res,
    (if Nat.eqb lo 0 then k bos s else None) = Some res →
    ∃ bos' s', (len s' ≤ len s)%nat ∧ k bos' s' = Some res).
  { intros lo bos s res. destruct (Nat.eqb lo 0); [|done].
    exists bos, s. split; [lia|done]. }
  induction fuel as [|fuel IH]; intros lo hi bos s res; simpl; [by eauto|].
  destruct (room hi); [|by eauto].
  unfold orelse.
  destruct (body bos s _) as [r|] eqn:Hb; [|by eauto].
  intros [= ->].
  apply Hbody in Hb as (bos' & s' & Hle & Hk).
  destruct (len s' <? len s)%nat; [|done].
  apply IH in Hk as (bos'' & s'' & Hle' & Hk).
  exists bos'', s''. split; [lia|done].
Qed.

Lemma run_calls ic r :
  ∀ bos s (k : cont) res,
    run ic r bos s k = Some res →
    ∃ bos' s', (len s' ≤ len s)%nat ∧ k bos' s' = Some res.
Proof.
  induction r as [|items|r1 IH1 r2 IH2|r1 IH1 r2 IH2|lo hi r1 IH1| |];
    intros bos s k res; simpl.
  - exists bos, s. split; [lia|done].
  - destruct s as [|c rest]; [done|].
    destruct (in_matches ic items c); [|done].
    exists false, rest. simpl. split; [lia|done].
  - intros (bos' & s' & Hle & (bos'' & s'' & Hle' & Hk)%IH2)%IH1.
    exists bos'', s''. split; [lia|done].
  - unfold orelse. destruct (run ic r1 bos s k) eqn:H1.
    + intros [= ->]. eauto.
    + eauto.
  - apply repeat_loop_calls. exact IH1.
  - destruct bos; [|done]. exists true, s. split; [lia|done].
  - destruct s as [|c [|d rest]]; [| |done].
    + exists bos, EmptyString. split; [lia|done].
    + destruct (Ascii.eqb c "010"); [|done].
      exists bos, (String c EmptyString). split; [lia|done].
Qed.

Lemma run_dead_end ic r bos s (k : cont) :
  (∀ bos' s', (len s' ≤ len s)%nat → k bos' s' = None) →
  run ic r bos s k = None.
Proof.
  intros Hk. destruct (run ic r bos s k) as [res|] eqn:H; [|done].
  apply run_calls in H as (bos' & s' & Hle & H).
  by rewrite Hk in H.
Qed.

(** The result of a run depends on its continuation only through the
    subjects that are not longer than the one it started with. *)
Lemma repeat_loop_local (body : bool → string → cont → option string) :
  (∀ bos s (k1 k2 : cont),
     (∀ bos' s', (len s' ≤ len s)%nat → k1 bos' s' = k2 bos' s') →
     body bos s k1 = body bos s k2) →
  ∀ fuel lo hi bos s (k1 k2 : cont),
    (∀ bos' s', (len s' ≤ len s)%nat → k1 bos' s' = k2 bos' s') →
    repeat_loop body k1 fuel lo hi bos s = repeat_loop body k2 fuel lo hi bos s.
Proof.
  intros Hbody fuel.
  induction fuel as [|fuel IH]; intros lo hi bos s k1 k2 Hk; simpl.
  - by rewrite Hk.
  - rewrite (Hk bos s) by lia. destruct (room hi); [|done]. f_equal.
    apply Hbody. intros bos' s' Hle.
    destruct (len s' <? len s)%nat; [|done].
    apply IH. intros bos'' s'' Hle'. apply Hk. lia.
Qed.

Lemma run_local ic r :
  ∀ bos s (k1 k2 : cont),
    (∀ bos' s', (len s' ≤ len s)%nat → k1 bos' s' = k2 bos' s') →
    run ic r bos s k1 = run ic r bos s k2.
Proof.
  induction r as [|items|r1 IH1 r2 IH2|r1 IH1 r2 IH2|lo hi r1 IH1| |];
    intros bos s k1 k2 Hk; simpl.
  - by apply Hk.
  - destruct s as [|c rest]; [done|].
    destruct (in_matches ic items c); [|done]. apply Hk. simpl. lia.
  - apply IH1. intros bos' s' Hle. apply IH2.
    intros bos'' s'' Hle'. apply Hk. lia.
  - by rewrite (IH1 _ _ k1 k2), (IH2 _ _ k1 k2).
  - by apply repeat_loop_local.
  - destruct bos; [|done]. by apply Hk.
  - destruct s as [|c [|d rest]]; [by apply Hk| |done].
    destruct (Ascii.eqb c "010"); [|done]. by apply Hk.
Qed.

(** The loop of a repetition never runs out of fuel: any fuel of at least
    the length of the subject gives the same result. *)
Lemma repeat_loop_fuel ic r (k : cont) :
  ∀ fuel1 fuel2 lo hi bos s,
    (len s ≤ fuel1)%nat → (len s ≤ fuel2)%nat →
    repeat_loop (run ic r) k fuel1 lo hi bos s
    = repeat_loop (run ic r) k fuel2 lo hi bos s.
Proof.
  assert (Hempty : ∀ fuel lo hi bos,
    repeat_loop (run ic r) k fuel lo hi bos EmptyString
    = if Nat.eqb lo 0 then k bos EmptyString else None).
  { intros [|fuel] lo hi bos; simpl; [done|].
    destruct (room hi); [|done].
    by rewrite run_dead_end. }
  induction fuel1 as [|fuel1 IH]; intros fuel2 lo hi bos s H1 H2.
  - destruct s; [|simpl in H1; lia]. by rewrite !Hempty.
  - destruct fuel2 as [|fuel2].
    { destruct s; [|simpl in H2; lia]. by rewrite !Hempty. }
    simpl. destruct (room hi); [|done]. f_equal.
    apply run_local. intros bos' s' Hle.
    destruct (len s' <? len s)%nat eqn:Hlt; [|done].
    apply Nat.ltb_lt in Hlt. apply IH; lia.
Qed.

(** The equation of a greedy repetition: one more iteration, which has to
    consume input, followed by the remaining repetition; or, once enough
    iterations were made, the continuation. *)
Lemma run_repeat ic lo hi r bos s (k : cont) :
  run ic (Repeat lo hi r) bos s k =
  let stop := if Nat.eqb lo 0 then k bos s else None in
  if room hi
  then orelse
         (run ic r bos s (fun bos' s' =>
            if (len s' <? len s)%nat
            then run ic (Repeat (Nat.pred lo) (less hi) r) bos' s' k
            else None))
         stop
  else stop.
Proof.
  simpl. destruct s as [|c rest].
  - simpl. destruct (room hi); [|done]. by rewrite run_dead_end by done.
  - change (len (String c rest)) with (S (len rest)) at 1.
    cbn [repeat_loop]. destruct (room hi); [|done]. f_equal.
    apply run_local. intros bos' s' Hle.
    destruct (len s' <? len (String c rest))%nat eqn:Hlt; [|done].
    apply Nat.ltb_lt in Hlt. simpl in Hlt.
    apply repeat_loop_fuel; lia.
Qed.

Lemma run_starts_anchored ic r :
  starts_anchored r = true → ∀ s k, run ic r false s k = None.
Proof.
  induction r; simpl; try done. intros H s k. by apply IHr1.
Qed.

Lemma run_ends_anchored ic r :
  ends_anchored r = true →
  ∀ bos s (k : cont) res,
    run ic r bos s k = Some res →
    ∃ bos' s', (s' = EmptyString ∨ s' = String "010" EmptyString)
               ∧ k bos' s' = Some res.
Proof.
  induction r as [|items|r1 IH1 r2 IH2|r1 IH1 r2 IH2|lo hi r1 IH1| |];
    simpl; try done; intros H bos s k res.
  - intros (bos' & s' & _ & H')%run_calls. eauto.
  - destruct s as [|c [|d rest]]; [eauto| |done].
    destruct (Ascii.eqb c "010") eqn:Hc; [|done].
    apply Ascii.eqb_eq in Hc as ->. eauto.
Qed.

Lemma search_unfold p bos s :
  search p bos s =
  match match_at p bos s with
  | Some rest => Some (EmptyString, s, rest)
  | None =>
      match s with
      | EmptyString => None
      | String c s' =>
          match search p false s' with
          | Some (pre, from, rest) => Some (String c pre, from, rest)
          | None => None
          end
      end
  end.
Proof. by destruct s. Qed.

Lemma search_starts_anchored p s :
  starts_anchored (expr p) = true → search p false s = None.
Proof.
  intros H. induction s as [|c rest IH]; rewrite search_unfold; unfold match_at;
    rewrite run_starts_anchored by done; [done|]. by rewrite IH.
Qed.

Lemma sub_from_no_match fuel p bos s :
  search p bos s = None → sub_from fuel p bos s = s.
Proof. intros H. destruct fuel; simpl; [done|]. by rewrite H. Qed.

Lemma sub_no_match p s : no_match p s = true → sub p s = s.
Proof.
  unfold no_match, sub. intros H. apply sub_from_no_match.
  by destruct (search p true s).
Qed.

Lemma search_bounds p :
  ∀ s bos pre from rest,
    search p bos s = Some (pre, from, rest) →
    (len rest ≤ len from)%nat ∧ (len from ≤ len s)%nat.
Proof.
  induction s as [|c s' IH]; intros bos pre from rest; rewrite search_unfold;
    unfold match_at.
  - destruct (run _ _ _ _ finish) as [r|] eqn:Hm; [|done].
    intros [= <- <- <-].
    apply run_calls in Hm as (bos' & t & Hle & [= <-]). lia.
  - destruct (run _ _ _ _ finish) as [r|] eqn:Hm.
    + intros [= <- <- <-].
      apply run_calls in Hm as (bos' & t & Hle & [= <-]). lia.
    + destruct (search p false s') as [[[pre' from'] rest']|] eqn:Hs; [|done].
      intros [= <- <- <-]. apply IH in Hs. simpl. lia.
Qed.

(** The scan of [sub] never runs out of fuel. *)
Lemma sub_from_fuel p :
  ∀ fuel1 fuel2 bos s,
    (len s < fuel1)%nat → (len s < fuel2)%nat →
    sub_from fuel1 p bos s = sub_from fuel2 p bos s.
Proof.
  induction fuel1 as [|fuel1 IH]; intros fuel2 bos s H1 H2; [lia|].
  destruct fuel2 as [|fuel2]; [lia|]. simpl.
  destruct (search p bos s) as [[[pre from] rest]|] eqn:Hs; [|done].
  apply search_bounds in Hs as [Hr Hf].
  destruct (len rest <? len from)%nat eqn:Hlt.
  - apply Nat.ltb_lt in Hlt. f_equal. apply IH; lia.
  - destruct rest as [|c rest']; [done|]. simpl in Hr.
    do 2 f_equal. apply IH; lia.
Qed.

(** The equation of [sub]: the text before the leftmost match, then the
    scan of what follows the match. *)
Lemma sub_equation p s :
  sub p s =
  match search p true s with
  | None => s
  | Some (pre, from, rest) =>
      if (len rest <? len from)%nat
      then pre +:+ sub_rest p rest
      else match rest with
           | EmptyString => pre
           | String c rest' => pre +:+ String c (sub_rest p rest')
           end
  end.
Proof.
  unfold sub. cbn [sub_from].
  destruct (search p true s) as [[[pre from] rest]|] eqn:Hs; [|done].
  apply search_bounds in Hs as [Hr Hf].
  destruct (len rest <? len from)%nat eqn:Hlt.
  - apply Nat.ltb_lt in Hlt. f_equal. apply sub_from_fuel; lia.
  - destruct rest as [|c rest']; [done|]. simpl in Hr.
    do 2 f_equal. apply sub_from_fuel; simpl; lia.
Qed.

(** A pattern anchored at both ends deletes the whole subject (up to its
    final newline) or nothing. *)
Lemma sub_anchored p s :
  starts_anchored (expr p) = true → ends_anchored (expr p) = true →
  sub p s = s ∨ sub p s = EmptyString ∨ sub p s = String "010" EmptyString.
Proof.
  intros Hs He. unfold sub. cbn [sub_from]. rewrite search_unfold.
  destruct (match_at p true s) as [rest|] eqn:Hm.
  - apply run_ends_anchored in Hm as (bos' & s' & Hs' & [= <-]); [|done].
    right.
    destruct (String.length s' <? String.length s)%nat.
    + rewrite sub_from_no_match by by apply search_starts_anchored.
      destruct Hs' as [->| ->]; auto.
    + destruct Hs' as [->| ->]; [by left|].
      rewrite sub_from_no_match by by apply search_starts_anchored.
      by right.
  - left. destruct s as [|c rest]; [done|].
    by rewrite search_starts_anchored.
Qed.

End ReFacts.

(** ** Properties of the check *)

Section Properties.

Variables PYTHON_PRINTF_MATCH PHP_PRINTF_MATCH C_PRINTF_MATCH : pattern.
Variable email_re : pattern.

Abbreviation format_regex :=
  (SameCheck.format_regex PYTHON_PRINTF_MATCH PHP_PRINTF_MATCH C_PRINTF_MATCH).
Abbreviation strip_format :=
  (SameCheck.strip_format PYTHON_PRINTF_MATCH PHP_PRINTF_MATCH C_PRINTF_MATCH).
Abbreviation strip_string :=
  (SameCheck.strip_string
     PYTHON_PRINTF_MATCH PHP_PRINTF_MATCH C_PRINTF_MATCH email_re).
Abbreviation should_ignore :=
  (SameCheck.should_ignore
     PYTHON_PRINTF_MATCH PHP_PRINTF_MATCH C_PRINTF_MATCH email_re).
Abbreviation check_single :=
  (SameCheck.check_single
     PYTHON_PRINTF_MATCH PHP_PRINTF_MATCH C_PRINTF_MATCH email_re).

Lemma format_regex_noflags : format_regex ∅ = None.
Proof. reflexivity. Qed.

Lemma should_ignore_fresh source unit cache_slot cache :
  cache !! cache_slot = None →
  should_ignore source unit cache_slot cache =
  (fst (should_ignore source unit cache_slot ∅),
   <[cache_slot := fst (should_ignore source unit cache_slot ∅)]> cache).
Proof.
  intros H. unfold SameCheck.should_ignore, get_cache, set_cache.
  by rewrite H, lookup_empty.
Qed.

Lemma should_ignore_cached source unit cache_slot cache b :
  cache !! cache_slot = Some b →
  should_ignore source unit cache_slot cache = (b, cache).
Proof.
  intros H. unfold SameCheck.should_ignore, get_cache. by rewrite H.
Qed.

(** C1 (as the code behaves): [URL_RE] is anchored at both ends, so the
    URL step deletes the whole string, up to a final newline, or nothing
    at all: a string that is a URL goes, a URL inside a sentence stays.
    With no format flags and an address matcher that finds nothing in it,
    the source "visit http://example.com today" is stripped to
    "visit http:// today": only the host name goes, through the domain
    step. *)
Theorem strip_string_keeps_embedded_url :
  (∀ s, Re.sub URL_RE s = s ∨ Re.sub URL_RE s = "" ∨ Re.sub URL_RE s = newline)
  ∧ Re.sub URL_RE "http://example.com" = ""
  ∧ Re.sub URL_RE "visit http://example.com today"
    = "visit http://example.com today"
  ∧ (Re.sub email_re "visit http://example.com today"
       = "visit http://example.com today" →
     strip_string "visit http://example.com today" ∅ = "visit http:// today").
Proof.
  split; [|split; [|split]].
  - intros s. by apply ReFacts.sub_anchored.
  - by vm_compute.
  - by vm_compute.
  - intros H. unfold SameCheck.strip_string, SameCheck.strip_format.
    rewrite format_regex_noflags, H. by vm_compute.
Qed.

(** C2: [check_single] answers [False] as soon as the unit is English, or
    both strings have at most one character, or both are upper case,
    without looking at the cache; otherwise it answers [False] when
    [should_ignore] says so, and else whether [source == target]. *)
Theorem check_single_short_circuits source target unit cache_slot cache :
  let early :=
    is_language unit ["en"]
    || ((String.length source <=? 1)%nat && (String.length target <=? 1)%nat)
    || (Py.isupper source && Py.isupper target) in
  let ignore := fst (should_ignore source unit cache_slot cache) in
  (early = true → check_single source target unit cache_slot cache = (false, cache))
  ∧ (early = false → ignore = true →
     fst (check_single source target unit cache_slot cache) = false)
  ∧ (early = false → ignore = false →
     fst (check_single source target unit cache_slot cache)
       = bool_decide (source = target)).
Proof.
  unfold SameCheck.check_single. simpl.
  destruct (is_language unit ["en"]); simpl; [by auto|].
  destruct ((String.length source <=? 1)%nat && (String.length target <=? 1)%nat);
    simpl; [by auto|].
  destruct (Py.isupper source && Py.isupper target); simpl; [by auto|].
  destruct (should_ignore source unit cache_slot cache) as [[] cache']; simpl;
    by auto.
Qed.

(** C4: a source that the strip of the characters [0123456789:/,.] from
    both ends reduces to at most one character is ignored, whatever the
    unit and the matchers, when the cache slot is empty. *)
Theorem should_ignore_numeric s unit cache_slot cache :
  cache !! cache_slot = None →
  (String.length (Py.strip "0123456789:/,." s) ≤ 1)%nat →
  fst (should_ignore s unit cache_slot cache) = true.
Proof.
  intros Hc Hlen. unfold SameCheck.should_ignore, get_cache. rewrite Hc. simpl.
  apply Nat.leb_le in Hlen. by rewrite Hlen.
Qed.

(** C5: a source that contains the copyright sign, or whose lower-cased
    form contains "(c) copyright", is ignored, whatever the unit and the
    matchers, when the cache slot is empty. *)
Theorem should_ignore_copyright s unit cache_slot cache :
  cache !! cache_slot = None →
  Py.contains copyright_sign s = true
    ∨ Py.contains "(c) copyright" (Py.lower s) = true →
  fst (should_ignore s unit cache_slot cache) = true.
Proof.
  intros Hc H. unfold SameCheck.should_ignore, get_cache. rewrite Hc. simpl.
  destruct H as [-> | ->]; by rewrite ?orb_true_r.
Qed.

(** C7: [should_ignore] returns a cached boolean as it is and leaves the
    cache alone; with an empty slot it stores what it computed; either
    way the slot holds the returned value afterwards. *)
Theorem should_ignore_memoizes source unit cache_slot (cache : gmap nat bool) :
  snd (should_ignore source unit cache_slot cache) !! cache_slot
    = Some (fst (should_ignore source unit cache_slot cache))
  ∧ (∀ b, cache !! cache_slot = Some b →
       should_ignore source unit cache_slot cache = (b, cache))
  ∧ (cache !! cache_slot = None →
       snd (should_ignore source unit cache_slot cache)
         = <[cache_slot := fst (should_ignore source unit cache_slot cache)]> cache).
Proof.
  split; [|split].
  - destruct (cache !! cache_slot) as [b|] eqn:H.
    + by rewrite (should_ignore_cached _ _ _ _ _ H).
    + rewrite (should_ignore_fresh _ _ _ _ H). simpl. apply lookup_insert_eq.
  - intros b H. by apply should_ignore_cached.
  - intros H. by rewrite (should_ignore_fresh _ _ _ _ H).
Qed.

(** C8: the answers of [should_ignore] and [check_single] depend only on
    the strings, the flags and the language test of the unit, and the
    content of the cache slot. A result computed with an empty slot is the
    one any other computation with an empty slot finds, it is the value
    left in the slot, and a call on that slot returns it again. *)
Theorem check_deterministic source target (unit1 unit2 : Unit) cache_slot
    (cache1 cache2 : gmap nat bool) :
  flags unit1 = flags unit2 →
  is_language unit1 ["en"] = is_language unit2 ["en"] →
  cache1 !! cache_slot = cache2 !! cache_slot →
  fst (should_ignore source unit1 cache_slot cache1)
    = fst (should_ignore source unit2 cache_slot cache2)
  ∧ fst (check_single source target unit1 cache_slot cache1)
    = fst (check_single source target unit2 cache_slot cache2)
  ∧ (cache1 !! cache_slot = None →
     snd (should_ignore source unit1 cache_slot cache1) !! cache_slot
       = Some (fst (should_ignore source unit2 cache_slot cache2))
     ∧ fst (should_ignore source unit2 cache_slot
              (snd (should_ignore source unit1 cache_slot cache1)))
       = fst (should_ignore source unit1 cache_slot cache1)).
Proof.
  intros Hf Hl Hc.
  assert (Hi : fst (should_ignore source unit1 cache_slot cache1)
               = fst (should_ignore source unit2 cache_slot cache2)).
  { unfold SameCheck.should_ignore, get_cache. rewrite Hc, Hf.
    by destruct (cache2 !! cache_slot). }
  split; [exact Hi|]. split.
  - unfold SameCheck.check_single. rewrite Hl.
    destruct (should_ignore source unit1 cache_slot cache1) as [i1 c1].
    destruct (should_ignore source unit2 cache_slot cache2) as [i2 c2].
    simpl in Hi. subst i2.
    repeat match goal with |- context [if ?b then _ else _] => destruct b end;
      done.
  - intros H1. rewrite <- Hi.
    rewrite (should_ignore_fresh _ unit1 _ _ H1). simpl.
    split; [apply lookup_insert_eq|].
    erewrite should_ignore_cached; [|apply lookup_insert_eq]. done.
Qed.

(** C10: with an empty source and an empty cache slot, [check_single]
    answers [False] for every target and unit. *)
Theorem check_single_empty_source target unit cache_slot cache :
  cache !! cache_slot = None →
  fst (check_single "" target unit cache_slot cache) = false.
Proof.
  intros H. unfold SameCheck.check_single.
  destruct (is_language unit ["en"]); [done|].
  destruct ((String.length "" <=? 1)%nat && (String.length target <=? 1)%nat);
    [done|].
  change (Py.isupper "") with false. simpl.
  unfold SameCheck.should_ignore, get_cache. by rewrite H.
Qed.

End Properties.

(** ** The check on concrete inputs *)

Import Reference.

Ltac compute_true :=
  match goal with
  | |- ?P => apply (bool_decide_unpack P); vm_compute; exact I
  end.

Lemma strip_string_keeps_embedded_url_witness :
  Reference.strip_string "visit http://example.com today" ∅
  = "visit http:// today".
Proof.
  apply (strip_string_keeps_embedded_url
           PYTHON_PRINTF_MATCH PHP_PRINTF_MATCH C_PRINTF_MATCH email_re).
  vm_compute. reflexivity.
Defined.

Lemma check_single_short_circuits_witness :
  Reference.check_single "OK" "OK" french 0 ∅ = (false, ∅)
  ∧ fst (Reference.check_single "Web" "Web" french 0 ∅) = false
  ∧ fst (Reference.check_single "Hello" "Hello" french 0 ∅)
    = bool_decide ("Hello" = "Hello").
Proof.
  split; [|split].
  - apply (check_single_short_circuits
             PYTHON_PRINTF_MATCH PHP_PRINTF_MATCH C_PRINTF_MATCH email_re
             "OK" "OK" french 0 ∅).
    vm_compute. reflexivity.
  - apply (check_single_short_circuits
             PYTHON_PRINTF_MATCH PHP_PRINTF_MATCH C_PRINTF_MATCH email_re
             "Web" "Web" french 0 ∅); vm_compute; reflexivity.
  - apply (check_single_short_circuits
             PYTHON_PRINTF_MATCH PHP_PRINTF_MATCH C_PRINTF_MATCH email_re
             "Hello" "Hello" french 0 ∅); vm_compute; reflexivity.
Defined.

(** C3 (as stated) fails: the first pass over [long_host] removes the
    host name that starts at its second character, since a label holds at
    most 63 characters, and leaves "x.jk"; the second pass removes that
    as a host name of its own. *)
Lemma strip_string_not_idempotent :
  Reference.strip_string long_host ∅ = "x.jk"
  ∧ Reference.strip_string (Reference.strip_string long_host ∅) ∅ = ""
  ∧ Reference.strip_string (Reference.strip_string long_host ∅) ∅
    ≠ Reference.strip_string long_host ∅.
Proof. by vm_compute. Qed.

Lemma should_ignore_numeric_witness :
  fst (Reference.should_ignore "1:4" french 0 ∅) = true.
Proof.
  apply (should_ignore_numeric
           PYTHON_PRINTF_MATCH PHP_PRINTF_MATCH C_PRINTF_MATCH email_re).
  - reflexivity.
  - vm_compute. lia.
Defined.

Lemma should_ignore_copyright_witness :
  fst (Reference.should_ignore (copyright_sign +:+ " 2013 Acme") french 0 ∅)
    = true
  ∧ fst (Reference.should_ignore "(C) Copyright 2012 Acme" french 0 ∅) = true.
Proof.
  split;
    apply (should_ignore_copyright
             PYTHON_PRINTF_MATCH PHP_PRINTF_MATCH C_PRINTF_MATCH email_re);
    try reflexivity.
  - left. vm_compute. reflexivity.
  - right. vm_compute. reflexivity.
Defined.

Lemma should_ignore_memoizes_witness :
  Reference.should_ignore "Hello" french 0 {[0 := true]}
    = (true, {[0 := true]})
  ∧ snd (Reference.should_ignore "Hello" french 0 ∅)
    = <[0 := fst (Reference.should_ignore "Hello" french 0 ∅)]> ∅.
Proof.
  split.
  - apply (should_ignore_memoizes
             PYTHON_PRINTF_MATCH PHP_PRINTF_MATCH C_PRINTF_MATCH email_re
             "Hello" french 0 {[0 := true]}).
    reflexivity.
  - apply (should_ignore_memoizes
             PYTHON_PRINTF_MATCH PHP_PRINTF_MATCH C_PRINTF_MATCH email_re
             "Hello" french 0 ∅).
    reflexivity.
Defined.

Lemma check_deterministic_witness :
  fst (Reference.should_ignore "Web" french 0 ∅)
    = fst (Reference.should_ignore "Web" french 0 {[1 := false]})
  ∧ fst (Reference.check_single "Web" "Web" french 0 ∅)
    = fst (Reference.check_single "Web" "Web" french 0 {[1 := false]})
  ∧ (snd (Reference.should_ignore "Web" french 0 ∅) !! 0
       = Some (fst (Reference.should_ignore "Web" french 0 {[1 := false]}))
     ∧ fst (Reference.should_ignore "Web" french 0
              (snd (Reference.should_ignore "Web" french 0 ∅)))
       = fst (Reference.should_ignore "Web" french 0 ∅)).
Proof.
  destruct (check_deterministic
              PYTHON_PRINTF_MATCH PHP_PRINTF_MATCH C_PRINTF_MATCH email_re
              "Web" "Web" french french 0 ∅ {[1 := false]})
    as (H1 & H2 & H3); try reflexivity.
  split; [exact H1|]. split; [exact H2|]. apply H3. reflexivity.
Defined.

Lemma check_single_empty_source_witness :
  fst (Reference.check_single "" "Bonjour" french 0 ∅) = false.
Proof.
  apply (check_single_empty_source
           PYTHON_PRINTF_MATCH PHP_PRINTF_MATCH C_PRINTF_MATCH email_re).
  reflexivity.
Defined.

(** ** The scenarios of the specification *)

Module Scenarios.

Example english_unit :
  fst (Reference.check_single "Hello" "Hello" english 0 ∅) = false.
Proof. by vm_compute. Qed.

Example placeholder_only :
  Reference.strip_string "%s" {["python-format"]} = ""
  ∧ fst (Reference.check_single "%s" "%s" french_python 0 ∅) = false.
Proof. by vm_compute. Qed.

Example blacklisted_word :
  fst (Reference.check_single "Web" "Web" french 0 ∅) = false.
Proof. by vm_compute. Qed.

Example upper_case_pair :
  fst (Reference.check_single "OK" "OK" french 0 ∅) = false.
Proof. by vm_compute. Qed.

Example sentence_with_url :
  fst (Reference.should_ignore "visit http://example.com today" french 0 ∅)
    = false
  ∧ fst (Reference.check_single "visit http://example.com today"
           "visit http://example.com today" french 0 ∅) = true.
Proof. by vm_compute. Qed.

Example copyright_notice :
  fst (Reference.check_single (copyright_sign +:+ " 2013 Acme")
         (copyright_sign +:+ " 2013 Acme") french 0 ∅) = false.
Proof. by vm_compute. Qed.

End Scenarios.

(** ** More on the string primitives *)

Module PyMore.
Import Py.

Lemma app_nil (b : string) : EmptyString +:+ b = b.
Proof. done. Qed.

Lemma app_cons x (a b : string) : String x a +:+ b = String x (a +:+ b).
Proof. done. Qed.

Lemma app_assoc (a b c : string) : (a +:+ b) +:+ c = a +:+ (b +:+ c).
Proof.
  induction a as [|x a IH]; [done|]. rewrite !app_cons. by rewrite IH.
Qed.

Lemma length_app (a b : string) :
  String.length (a +:+ b) = (String.length a + String.length b)%nat.
Proof.
  induction a as [|x a IH]; [done|]. rewrite app_cons. simpl. by rewrite IH.
Qed.

Lemma any_app q (a b : string) : any q (a +:+ b) = any q a || any q b.
Proof.
  induction a as [|x a IH]; [done|]. rewrite app_cons. simpl.
  by rewrite IH, orb_assoc.
Qed.

Lemma mem_any c s : mem c s = any (Ascii.eqb c) s.
Proof. induction s as [|d s IH]; simpl; [done|]. by rewrite IH. Qed.

Lemma any_false q s :
  any q s = false ↔ ∀ c, mem c s = true → q c = false.
Proof.
  split.
  - intros H c Hc. destruct (q c) eqn:E; [|done].
    assert (any q s = true) by (apply PyFacts.any_mem; eauto). congruence.
  - intros H. destruct (any q s) eqn:E; [|done].
    apply PyFacts.any_mem in E as (c & Hc & Hq). by rewrite (H c Hc) in Hq.
Qed.

Lemma any_mono (q1 q2 : ascii → bool) s :
  (∀ c, q1 c = true → q2 c = true) → any q1 s = true → any q2 s = true.
Proof.
  intros H (c & Hc & Hq)%PyFacts.any_mem. apply PyFacts.any_mem. eauto.
Qed.

(** The strips only delete. *)
Lemma lstrip_any q chars s : any q (lstrip chars s) = true → any q s = true.
Proof.
  induction s as [|c s IH]; simpl; [done|].
  destruct (mem c chars); [|done]. intros H. by rewrite IH, orb_true_r.
Qed.

Lemma rstrip_any q chars s : any q (rstrip chars s) = true → any q s = true.
Proof.
  induction s as [|c s IH]; simpl; [done|].
  destruct (is_empty (rstrip chars s) && mem c chars); simpl; [done|].
  intros [->|H]%orb_true_iff; [done|]. by rewrite IH, orb_true_r.
Qed.

Lemma strip_any q chars s : any q (strip chars s) = true → any q s = true.
Proof. unfold strip. intros H. by eapply lstrip_any, rstrip_any. Qed.

Lemma lstrip_length chars s :
  (String.length (lstrip chars s) ≤ String.length s)%nat.
Proof.
  induction s as [|c s IH]; simpl; [done|].
  destruct (mem c chars); simpl; lia.
Qed.

Lemma rstrip_length chars s :
  (String.length (rstrip chars s) ≤ String.length s)%nat.
Proof.
  induction s as [|c s IH]; simpl; [done|].
  destruct (is_empty (rstrip chars s) && mem c chars); simpl; lia.
Qed.

Lemma strip_length chars s :
  (String.length (strip chars s) ≤ String.length s)%nat.
Proof.
  unfold strip. pose proof (rstrip_length chars (lstrip chars s)).
  pose proof (lstrip_length chars s). lia.
Qed.

(** A string of characters of [chars] is stripped to nothing. *)
Lemma strip_all chars s :
  any (fun c => negb (mem c chars)) s = false → strip chars s = EmptyString.
Proof.
  unfold strip. intros H.
  assert (lstrip chars s = EmptyString) as ->; [|done].
  induction s as [|c s IH]; simpl in *; [done|].
  apply orb_false_iff in H as [Hc H]. apply negb_false_iff in Hc.
  rewrite Hc. by apply IH.
Qed.

(** What is left by a strip neither starts nor ends with a character of
    [chars]. *)
Lemma rstrip_last chars s :
  ∀ t c, rstrip chars s = t +:+ String c EmptyString → mem c chars = false.
Proof.
  induction s as [|d s IH]; intros t c; simpl.
  - by destruct t.
  - destruct (is_empty (rstrip chars s) && mem d chars) eqn:E.
    + by destruct t.
    + destruct t as [|x t]; rewrite ?app_nil, ?app_cons.
      * intros [= -> Hr]. rewrite Hr in E. simpl in E. done.
      * intros [= -> Hr]. by eapply IH.
Qed.

Lemma strip_first chars s c t :
  strip chars s = String c t → mem c chars = false.
Proof.
  intros H. pose proof (PyFacts.lstrip_rstrip chars s) as Hl.
  fold (strip chars s) in Hl. rewrite H in Hl. simpl in Hl.
  destruct (mem c chars) eqn:E; [|done].
  pose proof (lstrip_length chars t) as Hlen. rewrite Hl in Hlen.
  simpl in Hlen. lia.
Qed.

Lemma strip_last chars s c t :
  strip chars s = t +:+ String c EmptyString → mem c chars = false.
Proof. unfold strip. apply rstrip_last. Qed.

(** [replace] brings in no character but those of [new], and does not
    lengthen when [new] is not longer than [old]. *)
Lemma replace_from_any q old new s :
  ∀ skip, any q (replace_from skip old new s) = true →
          any q s = true ∨ any q new = true.
Proof.
  induction s as [|c s IH]; intros skip; simpl; [done|].
  destruct skip as [|k].
  - destruct (startswith old (String c s)).
    + rewrite any_app. intros [H|H%IH]%orb_true_iff; [by right|].
      destruct H as [->|H]; [left; by rewrite orb_true_r|by right].
    + simpl. intros [->|H%IH]%orb_true_iff; [by left|].
      destruct H as [->|H]; [left; by rewrite orb_true_r|by right].
  - intros H%IH. destruct H as [->|H]; [left; by rewrite orb_true_r|by right].
Qed.

Lemma replace_any q old new s :
  any q (replace old new s) = true → any q s = true ∨ any q new = true.
Proof. apply replace_from_any. Qed.

Lemma startswith_length p s :
  startswith p s = true → (String.length p ≤ String.length s)%nat.
Proof.
  revert s. induction p as [|a p IH]; intros [|b s]; simpl; try done; try lia.
  intros [_ H%IH]%andb_true_iff. lia.
Qed.

Lemma replace_from_length old new s :
  (String.length new ≤ String.length old)%nat →
  ∀ skip, (skip ≤ String.length s)%nat →
    (String.length (replace_from skip old new s) ≤ String.length s - skip)%nat.
Proof.
  intros Hn. induction s as [|c s IH]; intros skip Hs; simpl; [lia|].
  destruct skip as [|k].
  - destruct (startswith old (String c s)) eqn:E.
    + rewrite length_app.
      apply startswith_length in E. simpl in E.
      pose proof (IH (Nat.pred (String.length old)) ltac:(lia)). lia.
    + simpl. pose proof (IH 0%nat ltac:(lia)). lia.
  - simpl in Hs. pose proof (IH k ltac:(lia)). lia.
Qed.

Lemma replace_length old new s :
  (String.length new ≤ String.length old)%nat →
  (String.length (replace old new s) ≤ String.length s)%nat.
Proof.
  intros H. pose proof (replace_from_length old new s H 0%nat ltac:(lia)).
  unfold replace. lia.
Qed.

End PyMore.

(** ** More on the matcher *)

Module ReMore.
Import Re Needs PyMore.

Lemma forall_bool_spec p : forall_bool p = true → ∀ b, p b = true.
Proof. unfold forall_bool. intros [H1 H2]%andb_true_iff []; done. Qed.

Lemma forall_ascii_spec p : forall_ascii p = true → ∀ c, p c = true.
Proof.
  intros H [b0 b1 b2 b3 b4 b5 b6 b7]. unfold forall_ascii in H.
  apply forall_bool_spec with (b := b0) in H.
  apply forall_bool_spec with (b := b1) in H.
  apply forall_bool_spec with (b := b2) in H.
  apply forall_bool_spec with (b := b3) in H.
  apply forall_bool_spec with (b := b4) in H.
  apply forall_bool_spec with (b := b5) in H.
  apply forall_bool_spec with (b := b6) in H.
  by apply forall_bool_spec with (b := b7) in H.
Qed.

(** A successful run hands a suffix of its subject to its continuation. *)
Lemma repeat_loop_suffix (body : bool → string → cont → option string)
    (k : cont) :
  (∀ bos s (k' : cont) res,
     body bos s k' = Some res →
     ∃ bos' m s', s = m +:+ s' ∧ k' bos' s' = Some res) →
  ∀ fuel lo hi bos s res,
    repeat_loop body k fuel lo hi bos s = Some res →
    ∃ bos' m s', s = m +:+ s' ∧ k bos' s' = Some res.
Proof.
  intros Hbody fuel.
  assert (Hstop : ∀ lo bos s res,
    (if Nat.eqb lo 0 then k bos s else None) = Some res →
    ∃ bos' m s', s = m +:+ s' ∧ k bos' s' = Some res).
  { intros lo bos s res. destruct (Nat.eqb lo 0); [|done].
    by exists bos, EmptyString, s. }
  induction fuel as [|fuel IH]; intros lo hi bos s res; simpl; [by eauto|].
  destruct (room hi); [|by eauto].
  unfold orelse.
  destruct (body bos s _) as [r|] eqn:Hb; [|by eauto].
  intros [= ->].
  apply Hbody in Hb as (bos' & m & s' & -> & Hk).
  destruct (String.length s' <? String.length (m +:+ s'))%nat; [|done].
  apply IH in Hk as (bos'' & m' & s'' & -> & Hk).
  exists bos'', (m +:+ m'), s''. by rewrite app_assoc.
Qed.

Lemma run_suffix ic r :
  ∀ bos s (k : cont) res,
    run ic r bos s k = Some res →
    ∃ bos' m s', s = m +:+ s' ∧ k bos' s' = Some res.
Proof.
  induction r as [|items|r1 IH1 r2 IH2|r1 IH1 r2 IH2|lo hi r1 IH1| |];
    intros bos s k res; simpl.
  - by exists bos, EmptyString, s.
  - destruct s as [|c rest]; [done|].
    destruct (in_matches ic items c); [|done].
    by exists false, (String c EmptyString), rest.
  - intros (bos' & m & s' & -> & (bos'' & m' & s'' & -> & Hk)%IH2)%IH1.
    exists bos'', (m +:+ m'), s''. by rewrite app_assoc.
  - unfold orelse. destruct (run ic r1 bos s k) eqn:H1.
    + intros [= ->]. eauto.
    + eauto.
  - apply repeat_loop_suffix. exact IH1.
  - destruct bos; [|done]. by exists true, EmptyString, s.
  - destruct s as [|c [|d rest]]; [| |done].
    + by exists bos, EmptyString, EmptyString.
    + destruct (Ascii.eqb c "010"); [|done].
      by exists bos, EmptyString, (String c EmptyString).
Qed.

(** The three parts of a search result make up the subject. *)
Lemma search_split p :
  ∀ s bos pre from rest,
    search p bos s = Some (pre, from, rest) →
    s = pre +:+ from ∧ ∃ m, from = m +:+ rest.
Proof.
  induction s as [|c s' IH]; intros bos pre from rest;
    rewrite ReFacts.search_unfold; unfold match_at.
  - destruct (run _ _ _ _ finish) as [r|] eqn:Hm; [|done].
    intros [= <- <- <-]. split; [done|].
    apply run_suffix in Hm as (bos' & m & t & Hs & [= <-]). eauto.
  - destruct (run _ _ _ _ finish) as [r|] eqn:Hm.
    + intros [= <- <- <-]. split; [done|].
      apply run_suffix in Hm as (bos' & m & t & Hs & [= <-]). eauto.
    + destruct (search p false s') as [[[pre' from'] rest']|] eqn:Hs; [|done].
      intros [= <- <- <-]. apply IH in Hs as [-> Hm']. by rewrite app_cons.
Qed.

(** [sub] only deletes: it brings in no character and does not
    lengthen. *)
Lemma sub_from_any q p :
  ∀ fuel bos s, Py.any q (sub_from fuel p bos s) = true → Py.any q s = true.
Proof.
  induction fuel as [|fuel IH]; intros bos s; simpl; [done|].
  destruct (search p bos s) as [[[pre from] rest]|] eqn:Hs; [|done].
  apply search_split in Hs as [-> [m ->]].
  rewrite !any_app.
  destruct (String.length rest <? String.length (m +:+ rest))%nat.
  - rewrite any_app. intros [->|H%IH]%orb_true_iff; [done|].
    by rewrite H, !orb_true_r.
  - destruct rest as [|c rest'].
    + intros ->. done.
    + rewrite any_app. simpl.
      intros [->|[->|H%IH]%orb_true_iff]%orb_true_iff;
        rewrite ?orb_true_r; try done.
      by rewrite H, !orb_true_r.
Qed.

Lemma sub_any q p s : Py.any q (sub p s) = true → Py.any q s = true.
Proof. apply sub_from_any. Qed.

Lemma sub_from_length p :
  ∀ fuel bos s, (String.length (sub_from fuel p bos s) ≤ String.length s)%nat.
Proof.
  induction fuel as [|fuel IH]; intros bos s; simpl; [done|].
  destruct (search p bos s) as [[[pre from] rest]|] eqn:Hs; [|done].
  apply search_split in Hs as [-> [m ->]].
  rewrite !length_app.
  destruct (String.length rest <? String.length m + String.length rest)%nat.
  - rewrite length_app. pose proof (IH false rest). lia.
  - destruct rest as [|c rest']; [lia|].
    rewrite length_app. simpl. pose proof (IH false rest'). lia.
Qed.

Lemma sub_length p s : (String.length (sub p s) ≤ String.length s)%nat.
Proof. apply sub_from_length. Qed.

(** A pattern that demands a character of [bad] has no match in a subject
    without one. *)
Lemma free_of_suffix bad m s : free_of bad (m +:+ s) = true → free_of bad s = true.
Proof.
  unfold free_of. rewrite any_app, !negb_true_iff.
  by intros [_ ?]%orb_false_iff.
Qed.

Lemma run_demands ic bad r :
  demands ic bad r = true →
  ∀ bos s (k : cont), free_of bad s = true → run ic r bos s k = None.
Proof.
  induction r as [|items|r1 IH1 r2 IH2|r1 IH1 r2 IH2|lo hi r1 IH1| |];
    simpl; try done; intros Hd bos s k Hs.
  - destruct s as [|c rest]; [done|].
    pose proof (forall_ascii_spec _ Hd c) as Hc. simpl in Hc.
    unfold free_of in Hs. simpl in Hs.
    apply negb_true_iff, orb_false_iff in Hs as [Hbad _].
    rewrite Hbad in Hc. simpl in Hc. apply negb_true_iff in Hc.
    by rewrite Hc.
  - apply orb_true_iff in Hd as [Hd|Hd]; [by apply IH1|].
    destruct (run ic r1 bos s _) as [res|] eqn:H; [|done].
    apply run_suffix in H as (bos' & m & s' & -> & H).
    rewrite IH2 in H; [done|done|]. by eapply free_of_suffix.
  - apply andb_true_iff in Hd as [Hd1 Hd2].
    by rewrite IH1, IH2.
  - apply andb_true_iff in Hd as [Hlo Hd]. apply negb_true_iff in Hlo.
    destruct (String.length s) as [|fuel]; simpl; rewrite Hlo; [done|].
    destruct (room hi); [|done]. by rewrite IH1.
Qed.

Lemma search_demands p bad :
  demands (ignorecase p) bad (expr p) = true →
  ∀ s bos, free_of bad s = true → search p bos s = None.
Proof.
  intros Hd. induction s as [|c s IH]; intros bos Hs;
    rewrite ReFacts.search_unfold; unfold match_at;
    rewrite (run_demands _ _ _ Hd) by done; [done|].
  rewrite IH; [done|]. by apply (free_of_suffix bad (String c EmptyString)).
Qed.

Lemma sub_demands p bad s :
  demands (ignorecase p) bad (expr p) = true →
  free_of bad s = true → sub p s = s.
Proof.
  intros Hd Hs. apply ReFacts.sub_from_no_match. by eapply search_demands.
Qed.

Lemma run_cat_in ic items r bos s (k : cont) :
  run ic (Cat (In_ items) r) bos s k =
  match s with
  | String c t => if in_matches ic items c then run ic r false t k else None
  | EmptyString => None
  end.
Proof. by destruct s. Qed.

(** A repetition that may stop at once always matches, when nothing is
    asked of what follows. *)
Lemma run_repeat0_some ic hi r bos s :
  ∃ res, run ic (Repeat 0 hi r) bos s finish = Some res
         ∧ (String.length res ≤ String.length s)%nat.
Proof.
  destruct (run ic (Repeat 0 hi r) bos s finish) as [res|] eqn:H.
  - apply ReFacts.run_calls in H as (bos' & s' & Hle & [= <-]). eauto.
  - exfalso. simpl in H. destruct (String.length s); simpl in H; [done|].
    destruct (room hi); [|done]. unfold orelse in H.
    by destruct (run ic r bos s _).
Qed.

(** [HASH_RE] matches at every [#], and only there; a match is not
    empty. *)
Lemma hash_match bos s :
  match match_at HASH_RE bos s with
  | Some rest => (String.length rest < String.length s)%nat
  | None => ∀ t, s ≠ String "#" t
  end.
Proof.
  unfold match_at, HASH_RE, star. cbn [expr ignorecase lit].
  rewrite run_cat_in. destruct s as [|c t]; [done|].
  unfold in_matches. cbn [existsb item_matches]. rewrite orb_false_r.
  destruct (Ascii.eqb c "#") eqn:Hc.
  - destruct (run_repeat0_some false None
                (In_ [Range "A" "Z"; Range "a" "z"; Range "0" "9";
                      Lit "_"; Lit "-"]) false t) as (res & -> & Hle).
    simpl. lia.
  - intros t' [= -> _]. by rewrite Ascii.eqb_refl in Hc.
Qed.

Lemma search_hash :
  ∀ s bos,
    match search HASH_RE bos s with
    | Some (pre, from, rest) =>
        Py.mem "#" pre = false
        ∧ (String.length rest < String.length from)%nat
    | None => Py.mem "#" s = false
    end.
Proof.
  induction s as [|c s IH]; intros bos; rewrite ReFacts.search_unfold;
    pose proof (hash_match bos) as Hm.
  - specialize (Hm EmptyString). by destruct (match_at HASH_RE bos _).
  - specialize (Hm (String c s)).
    destruct (match_at HASH_RE bos _) as [rest|]; [done|].
    assert (Ascii.eqb "#" c = false) as Hc.
    { destruct (Ascii.eqb "#" c) eqn:E; [|done].
      apply Ascii.eqb_eq in E as <-. by destruct (Hm s). }
    specialize (IH false).
    destruct (search HASH_RE false s) as [[[pre from] rest]|]; cbn [Py.mem];
      by rewrite Hc.
Qed.

(** No [#] is left by [HASH_RE.sub]. *)
Lemma sub_from_hash :
  ∀ fuel bos s,
    (String.length s < fuel)%nat →
    Py.mem "#" (sub_from fuel HASH_RE bos s) = false.
Proof.
  induction fuel as [|fuel IH]; intros bos s Hf; [lia|]. simpl.
  pose proof (search_hash s bos) as Hs.
  pose proof (ReFacts.search_bounds HASH_RE s bos) as Hb.
  destruct (search HASH_RE bos s) as [[[pre from] rest]|]; [|done].
  destruct Hs as [Hpre Hlt]. destruct (Hb _ _ _ eq_refl) as [_ Hle].
  apply Nat.ltb_lt in Hlt as Hlt'. rewrite Hlt'.
  rewrite mem_any, any_app, <- !mem_any, Hpre. simpl.
  apply IH. lia.
Qed.

Lemma sub_hash s : Py.mem "#" (sub HASH_RE s) = false.
Proof. apply sub_from_hash. lia. Qed.

End ReMore.

(** ** Case and the primitives *)

Module CaseFacts.
Import Py Needs PyMore.

Lemma length_lower s : String.length (lower s) = String.length s.
Proof. induction s as [|c s IH]; simpl; [done|]. by rewrite IH. Qed.

Lemma is_empty_lower s : is_empty (lower s) = is_empty s.
Proof. by destruct s. Qed.

Lemma mem_lower c0 s :
  (∀ c, Ascii.eqb c0 (Chars.lower c) = Ascii.eqb c0 c) →
  mem c0 (lower s) = mem c0 s.
Proof.
  intros H. induction s as [|c s IH]; simpl; [done|]. by rewrite H, IH.
Qed.

(** Stripping characters that [lower] neither makes nor unmakes commutes
    with [lower]. *)
Lemma lstrip_lower chars s :
  (∀ c, mem (Chars.lower c) chars = mem c chars) →
  lstrip chars (lower s) = lower (lstrip chars s).
Proof.
  intros H. induction s as [|c s IH]; simpl; [done|].
  rewrite H. by destruct (mem c chars).
Qed.

Lemma rstrip_lower chars s :
  (∀ c, mem (Chars.lower c) chars = mem c chars) →
  rstrip chars (lower s) = lower (rstrip chars s).
Proof.
  intros H. induction s as [|c s IH]; simpl; [done|].
  rewrite IH, is_empty_lower, H.
  by destruct (is_empty (rstrip chars s) && mem c chars).
Qed.

Lemma strip_lower chars s :
  (∀ c, mem (Chars.lower c) chars = mem c chars) →
  strip chars (lower s) = lower (strip chars s).
Proof.
  intros H. unfold strip. by rewrite lstrip_lower, rstrip_lower.
Qed.

Lemma contains_char c0 s : contains (String c0 EmptyString) s = mem c0 s.
Proof.
  induction s as [|c s IH]; [done|].
  cbn [contains startswith mem]. rewrite IH.
  by destruct s; rewrite andb_true_r.
Qed.

(** A string without upper-case characters is its own lower case. *)
Lemma lower_fixed s : any Chars.is_upper s = false → lower s = s.
Proof.
  induction s as [|c s IH]; simpl; [done|].
  intros [Hc Hs]%orb_false_iff. unfold Chars.lower. by rewrite Hc, IH.
Qed.

Lemma numeric_chars_lower c :
  mem (Chars.lower c) "0123456789:/,." = mem c "0123456789:/,.".
Proof.
  apply Bool.eqb_prop. revert c.
  apply (ReMore.forall_ascii_spec
           (fun c => Bool.eqb (mem (Chars.lower c) "0123456789:/,.")
                              (mem c "0123456789:/,."))).
  by vm_compute.
Qed.

Lemma copyright_sign_lower c :
  Ascii.eqb "169" (Chars.lower c) = Ascii.eqb "169" c.
Proof.
  apply Bool.eqb_prop. revert c.
  apply (ReMore.forall_ascii_spec
           (fun c => Bool.eqb (Ascii.eqb "169" (Chars.lower c))
                              (Ascii.eqb "169" c))).
  by vm_compute.
Qed.

Lemma trim_chars_not_upper c :
  mem c SameCheck.TRIM_CHARS = true → Chars.is_upper c = false.
Proof.
  intros H. apply negb_true_iff.
  revert c H.
  assert (Hall : ∀ c, negb (mem c SameCheck.TRIM_CHARS)
                      || negb (Chars.is_upper c) = true).
  { apply (ReMore.forall_ascii_spec
             (fun c => negb (mem c SameCheck.TRIM_CHARS)
                       || negb (Chars.is_upper c))).
    by vm_compute. }
  intros c H. specialize (Hall c). by rewrite H in Hall.
Qed.

End CaseFacts.

(** ** More properties of the check *)

Section MoreProperties.

Variables PYTHON_PRINTF_MATCH PHP_PRINTF_MATCH C_PRINTF_MATCH : pattern.
Variable email_re : pattern.

Abbreviation format_regex :=
  (SameCheck.format_regex PYTHON_PRINTF_MATCH PHP_PRINTF_MATCH C_PRINTF_MATCH).
Abbreviation strip_format :=
  (SameCheck.strip_format PYTHON_PRINTF_MATCH PHP_PRINTF_MATCH C_PRINTF_MATCH).
Abbreviation strip_string :=
  (SameCheck.strip_string
     PYTHON_PRINTF_MATCH PHP_PRINTF_MATCH C_PRINTF_MATCH email_re).
Abbreviation should_ignore :=
  (SameCheck.should_ignore
     PYTHON_PRINTF_MATCH PHP_PRINTF_MATCH C_PRINTF_MATCH email_re).
Abbreviation check_single :=
  (SameCheck.check_single
     PYTHON_PRINTF_MATCH PHP_PRINTF_MATCH C_PRINTF_MATCH email_re).

Lemma strip_format_any q msg flags :
  Py.any q (strip_format msg flags) = true → Py.any q msg = true.
Proof.
  unfold SameCheck.strip_format. destruct (format_regex flags); [|done].
  apply ReMore.sub_any.
Qed.

Lemma strip_format_length msg flags :
  (String.length (strip_format msg flags) ≤ String.length msg)%nat.
Proof.
  unfold SameCheck.strip_format. destruct (format_regex flags); [|done].
  apply ReMore.sub_length.
Qed.

Lemma replace_entities_any q s :
  q " "%char = false → q "034"%char = false →
  Py.any q (SameCheck.replace_entities s) = true → Py.any q s = true.
Proof.
  intros Hsp Hdq. unfold SameCheck.replace_entities.
  assert (Hn1 : Py.any q " " = false) by (simpl; by rewrite Hsp).
  assert (Hn2 : Py.any q double_quote = false) by (simpl; by rewrite Hdq).
  intros [[[[H|H]%PyMore.replace_any|H]%PyMore.replace_any|H]%PyMore.replace_any|H]%PyMore.replace_any;
    congruence.
Qed.

Lemma replace_entities_length s :
  (String.length (SameCheck.replace_entities s) ≤ String.length s)%nat.
Proof.
  unfold SameCheck.replace_entities.
  pose proof (PyMore.replace_length "&nbsp;" " " s ltac:(simpl; lia)).
  pose proof (PyMore.replace_length "&rsaquo;" double_quote
                (Py.replace "&nbsp;" " " s) ltac:(simpl; lia)).
  pose proof (PyMore.replace_length "&ldquo;" double_quote
                (Py.replace "&rsaquo;" double_quote (Py.replace "&nbsp;" " " s))
                ltac:(simpl; lia)).
  pose proof (PyMore.replace_length "&rdquo;" double_quote
                (Py.replace "&ldquo;" double_quote
                   (Py.replace "&rsaquo;" double_quote
                      (Py.replace "&nbsp;" " " s)))
                ltac:(simpl; lia)).
  lia.
Qed.

(** No step of [strip_string] brings in a character that satisfies [q],
    when the space and the double quote do not. *)
Lemma strip_string_any q msg flags :
  q " "%char = false → q "034"%char = false →
  Py.any q (strip_string msg flags) = true → Py.any q msg = true.
Proof.
  intros Hsp Hdq H. unfold SameCheck.strip_string in H.
  apply PyMore.strip_any, replace_entities_any in H; [|done..].
  by apply ReMore.sub_any, ReMore.sub_any, ReMore.sub_any, ReMore.sub_any,
    strip_format_any in H.
Qed.

Lemma blacklist_untouched w :
  w ∈ SAME_BLACKLIST → w ≠ "bzip2" → Needs.untouched w = true.
Proof.
  intros Hw Hne.
  assert (Hall : forallb (fun w => bool_decide (w = "bzip2") || Needs.untouched w)
                         (elements SAME_BLACKLIST) = true) by by vm_compute.
  rewrite forallb_forall in Hall.
  apply elem_of_elements, list_elem_of_In, Hall in Hw.
  by rewrite bool_decide_eq_false_2 in Hw.
Qed.

(** X1: a pair that [check_single] flags is a pair of identical strings of
    at least two characters, not upper case, of a unit that is not
    English, and [should_ignore] did not ignore the source. *)
Theorem check_single_flagged source target unit cache_slot cache :
  fst (check_single source target unit cache_slot cache) = true →
  source = target
  ∧ is_language unit ["en"] = false
  ∧ (2 ≤ String.length source)%nat
  ∧ Py.isupper source = false
  ∧ fst (should_ignore source unit cache_slot cache) = false.
Proof.
  unfold SameCheck.check_single.
  destruct (is_language unit ["en"]); [done|].
  destruct ((String.length source <=? 1)%nat && (String.length target <=? 1)%nat)
    eqn:Hlen; [done|].
  destruct (Py.isupper source && Py.isupper target) eqn:Hup; [done|].
  destruct (should_ignore source unit cache_slot cache) as [[] cache'];
    [done|]. simpl.
  intros <-%bool_decide_eq_true.
  rewrite andb_diag in Hlen, Hup. apply Nat.leb_gt in Hlen.
  repeat split; [lia|done].
Qed.

(** X2: [check_single] changes the cache at most at [cache_slot], and run
    again on the cache it left it gives the same answer and leaves that
    cache as it is. *)
Theorem check_single_rerun source target unit cache_slot
    (cache : gmap nat bool) :
  check_single source target unit cache_slot
    (snd (check_single source target unit cache_slot cache))
  = check_single source target unit cache_slot cache
  ∧ ∀ slot, slot ≠ cache_slot →
      snd (check_single source target unit cache_slot cache) !! slot
      = cache !! slot.
Proof.
  unfold SameCheck.check_single.
  destruct (is_language unit ["en"]); simpl; [done|].
  destruct ((String.length source <=? 1)%nat && (String.length target <=? 1)%nat);
    simpl; [done|].
  destruct (Py.isupper source && Py.isupper target); simpl; [done|].
  destruct (cache !! cache_slot) as [b|] eqn:Hc.
  - rewrite (should_ignore_cached _ _ _ _ _ _ _ _ _ Hc).
    destruct b; simpl; by rewrite (should_ignore_cached _ _ _ _ _ _ _ _ _ Hc).
  - rewrite (should_ignore_fresh _ _ _ _ _ _ _ _ Hc).
    set (i := fst (should_ignore source unit cache_slot ∅)).
    assert (Hi : <[cache_slot:=i]> cache !! cache_slot = Some i)
      by apply lookup_insert_eq.
    destruct i; simpl;
      rewrite (should_ignore_cached _ _ _ _ _ _ _ _ _ Hi); simpl;
      (split; [done|]); intros slot Hne; by rewrite lookup_insert_ne.
Qed.

(** X3: what [strip_string] returns neither starts nor ends with a
    character of the trim set. *)
Theorem strip_string_boundary msg flags :
  (∀ c t, strip_string msg flags = String c t →
          Py.mem c SameCheck.TRIM_CHARS = false)
  ∧ (∀ c t, strip_string msg flags = t +:+ String c EmptyString →
            Py.mem c SameCheck.TRIM_CHARS = false).
Proof.
  unfold SameCheck.strip_string. split; intros c t.
  - apply PyMore.strip_first.
  - apply PyMore.strip_last.
Qed.

(** X4: the residue is never "bzip2", which ends with a digit: that entry
    of the blacklist is never found by the lookup of [should_ignore]. *)
Theorem bzip2_never_found msg flags :
  bool_decide ("bzip2" ∈ SAME_BLACKLIST) = true
  ∧ bool_decide (strip_string msg flags = "bzip2") = false.
Proof.
  split; [by vm_compute|].
  apply bool_decide_eq_false_2. intros H.
  assert (Py.mem "2" SameCheck.TRIM_CHARS = false); [|done].
  unfold SameCheck.strip_string in H.
  eapply (PyMore.strip_last _ _ "2"%char "bzip"). by rewrite H.
Qed.

(** X5: [strip_string] never returns a string longer than the message. *)
Theorem strip_string_length msg flags :
  (String.length (strip_string msg flags) ≤ String.length msg)%nat.
Proof.
  unfold SameCheck.strip_string.
  etransitivity; [apply PyMore.strip_length|].
  etransitivity; [apply replace_entities_length|].
  etransitivity; [apply ReMore.sub_length|].
  etransitivity; [apply ReMore.sub_length|].
  etransitivity; [apply ReMore.sub_length|].
  etransitivity; [apply ReMore.sub_length|].
  apply strip_format_length.
Qed.

(** X6: no [#] is left in what [strip_string] returns. *)
Theorem strip_string_no_hash msg flags :
  Py.mem "#" (strip_string msg flags) = false.
Proof.
  destruct (Py.mem "#" (strip_string msg flags)) eqn:H; [|done].
  unfold SameCheck.strip_string in H. rewrite PyMore.mem_any in H.
  apply PyMore.strip_any, replace_entities_any, ReMore.sub_any in H;
    [|done..].
  rewrite <- PyMore.mem_any in H. by rewrite ReMore.sub_hash in H.
Qed.

(** X7: with an empty cache slot, the answer of [should_ignore] depends
    on the source only through its lower case. *)
Theorem should_ignore_case_insensitive source1 source2 unit cache_slot
    (cache : gmap nat bool) :
  cache !! cache_slot = None →
  Py.lower source1 = Py.lower source2 →
  fst (should_ignore source1 unit cache_slot cache)
  = fst (should_ignore source2 unit cache_slot cache).
Proof.
  intros Hc Hl. unfold SameCheck.should_ignore, get_cache. rewrite Hc. simpl.
  assert (Hn : ∀ s, String.length (Py.strip "0123456789:/,." s)
                    = String.length (Py.strip "0123456789:/,." (Py.lower s))).
  { intros s. rewrite CaseFacts.strip_lower by apply CaseFacts.numeric_chars_lower.
    by rewrite CaseFacts.length_lower. }
  assert (Hs : ∀ s, Py.contains copyright_sign s
                    = Py.contains copyright_sign (Py.lower s)).
  { intros s. unfold copyright_sign.
    rewrite !CaseFacts.contains_char.
    by rewrite CaseFacts.mem_lower by apply CaseFacts.copyright_sign_lower. }
  by rewrite (Hn source1), (Hn source2), (Hs source1), (Hs source2), Hl.
Qed.

(** X8: with an empty cache slot, a source made only of characters of the
    trim set is ignored, whatever the flags and the matchers. *)
Theorem should_ignore_punctuation source unit cache_slot
    (cache : gmap nat bool) :
  cache !! cache_slot = None →
  Py.any (fun c => negb (Py.mem c SameCheck.TRIM_CHARS)) source = false →
  fst (should_ignore source unit cache_slot cache) = true.
Proof.
  intros Hc Hs. unfold SameCheck.should_ignore, get_cache. rewrite Hc. simpl.
  destruct (_ || _ || _); [done|].
  assert (Hl : Py.lower source = source).
  { apply CaseFacts.lower_fixed, PyMore.any_false. intros c Hm.
    apply CaseFacts.trim_chars_not_upper.
    apply (proj1 (PyMore.any_false _ _) Hs) in Hm.
    by apply negb_false_iff in Hm. }
  rewrite Hl.
  assert (strip_string source (flags unit) = "") as ->; [|done].
  unfold SameCheck.strip_string. apply PyMore.strip_all.
  match goal with |- Py.any ?q ?x = false => destruct (Py.any q x) eqn:H end;
    [|done].
  apply replace_entities_any in H; [|done..].
  apply ReMore.sub_any, ReMore.sub_any, ReMore.sub_any, ReMore.sub_any,
    strip_format_any in H.
  congruence.
Qed.

(** X9: with an empty cache slot, a source whose lower case is a word of
    the blacklist other than "bzip2" is ignored, when the format and the
    address steps leave that word as it is. *)
Theorem should_ignore_blacklisted source unit cache_slot
    (cache : gmap nat bool) :
  cache !! cache_slot = None →
  Py.lower source ∈ SAME_BLACKLIST →
  Py.lower source ≠ "bzip2" →
  strip_format (Py.lower source) (flags unit) = Py.lower source →
  Re.sub email_re (Py.lower source) = Py.lower source →
  fst (should_ignore source unit cache_slot cache) = true.
Proof.
  intros Hc Hw Hne Hf He.
  unfold SameCheck.should_ignore, get_cache. rewrite Hc. simpl.
  destruct (_ || _ || _); [done|].
  assert (strip_string (Py.lower source) (flags unit) = Py.lower source) as ->.
  { pose proof (blacklist_untouched _ Hw Hne) as Hu.
    unfold Needs.untouched in Hu.
    repeat rewrite andb_true_iff in Hu.
    destruct Hu as [[[[[Hu Hh] Hd] Hr%bool_decide_eq_true] Ht%bool_decide_eq_true] _].
    unfold SameCheck.strip_string. rewrite Hf, He.
    rewrite (ReFacts.sub_no_match _ _ Hu), (ReFacts.sub_no_match _ _ Hh),
      (ReFacts.sub_no_match _ _ Hd).
    by rewrite Hr. }
  rewrite (bool_decide_eq_true_2 _ Hw). by destruct (bool_decide _).
Qed.

(** X10: a message without any of the characters [: # . &] that the format
    and the address steps leave as it is, is only stripped of the
    characters of the trim set at its ends. *)
Theorem strip_string_plain msg flags :
  Needs.free_of ":#.&" msg = true →
  strip_format msg flags = msg →
  Re.sub email_re msg = msg →
  strip_string msg flags = Py.strip SameCheck.TRIM_CHARS msg.
Proof.
  intros Hfree Hf He. unfold SameCheck.strip_string. rewrite Hf, He.
  rewrite (ReMore.sub_demands URL_RE ":#.&") by (done || by vm_compute).
  rewrite (ReMore.sub_demands HASH_RE ":#.&") by (done || by vm_compute).
  rewrite (ReMore.sub_demands DOMAIN_RE ":#.&") by (done || by vm_compute).
  assert (Hamp : ∀ old, Py.contains (String "&" old) msg = false).
  { intros old. unfold Needs.free_of in Hfree. apply negb_true_iff in Hfree.
    clear -Hfree. induction msg as [|c s IH]; [done|].
    simpl in Hfree. apply orb_false_iff in Hfree as [Hc Hs].
    cbn [Py.contains Py.startswith]. rewrite (IH Hs), orb_false_r.
    destruct (Ascii.eqb "&" c) eqn:E; [|done].
    apply Ascii.eqb_eq in E as <-. done. }
  unfold SameCheck.replace_entities.
  rewrite (PyFacts.replace_absent "&nbsp;" _ msg (Hamp _)).
  rewrite (PyFacts.replace_absent "&rsaquo;" _ msg (Hamp _)).
  rewrite (PyFacts.replace_absent "&ldquo;" _ msg (Hamp _)).
  by rewrite (PyFacts.replace_absent "&rdquo;" _ msg (Hamp _)).
Qed.

(** X11: with an empty cache slot, a source whose lower case is matched
    as a whole by [URL_RE] is ignored, when the format and the address
    steps leave it as it is. *)
Theorem should_ignore_whole_url source unit cache_slot
    (cache : gmap nat bool) :
  cache !! cache_slot = None →
  Re.match_at URL_RE true (Py.lower source) = Some "" →
  strip_format (Py.lower source) (flags unit) = Py.lower source →
  Re.sub email_re (Py.lower source) = Py.lower source →
  fst (should_ignore source unit cache_slot cache) = true.
Proof.
  intros Hc Hm Hf He.
  unfold SameCheck.should_ignore, get_cache. rewrite Hc. simpl.
  destruct (_ || _ || _); [done|].
  assert (strip_string (Py.lower source) (flags unit) = "") as ->; [|done].
  unfold SameCheck.strip_string. rewrite Hf, He.
  assert (Re.sub URL_RE (Py.lower source) = "") as ->; [|by vm_compute].
  unfold Re.sub. cbn [sub_from]. rewrite ReFacts.search_unfold, Hm.
  destruct (_ <? _)%nat; [|done].
  by rewrite ReFacts.sub_from_no_match
    by by apply ReFacts.search_starts_anchored.
Qed.

End MoreProperties.

(** ** The further properties on concrete inputs *)

Lemma check_single_flagged_witness :
  "Hello" = "Hello"
  ∧ is_language french ["en"] = false
  ∧ (2 ≤ String.length "Hello")%nat
  ∧ Py.isupper "Hello" = false
  ∧ fst (Reference.should_ignore "Hello" french 0 ∅) = false.
Proof.
  apply (check_single_flagged
           PYTHON_PRINTF_MATCH PHP_PRINTF_MATCH C_PRINTF_MATCH email_re
           "Hello" "Hello" french 0 ∅).
  vm_compute. reflexivity.
Defined.

Lemma check_single_rerun_witness :
  snd (Reference.check_single "Hello" "Hello" french 0 {[1 := true]}) !! 1
  = Some true.
Proof.
  rewrite (proj2 (check_single_rerun
                    PYTHON_PRINTF_MATCH PHP_PRINTF_MATCH C_PRINTF_MATCH email_re
                    "Hello" "Hello" french 0 {[1 := true]}) 1%nat).
  - reflexivity.
  - lia.
Defined.

Lemma strip_string_boundary_witness :
  Py.mem "v" SameCheck.TRIM_CHARS = false.
Proof.
  apply (proj1 (strip_string_boundary
                  PYTHON_PRINTF_MATCH PHP_PRINTF_MATCH C_PRINTF_MATCH email_re
                  "(visit us!)" ∅) "v"%char "isit us").
  vm_compute. reflexivity.
Defined.

Lemma should_ignore_case_insensitive_witness :
  fst (Reference.should_ignore "WebLate" french 0 ∅)
  = fst (Reference.should_ignore "wEBLATE" french 0 ∅).
Proof.
  apply (should_ignore_case_insensitive
           PYTHON_PRINTF_MATCH PHP_PRINTF_MATCH C_PRINTF_MATCH email_re);
    vm_compute; reflexivity.
Defined.

Lemma should_ignore_punctuation_witness :
  fst (Reference.should_ignore "(1) -> [2]: 50%!" french 0 ∅) = true.
Proof.
  apply (should_ignore_punctuation
           PYTHON_PRINTF_MATCH PHP_PRINTF_MATCH C_PRINTF_MATCH email_re);
    vm_compute; reflexivity.
Defined.

Lemma should_ignore_blacklisted_witness :
  fst (Reference.should_ignore "Lithium Ion" french 0 ∅) = true.
Proof.
  apply (should_ignore_blacklisted
           PYTHON_PRINTF_MATCH PHP_PRINTF_MATCH C_PRINTF_MATCH email_re).
  - reflexivity.
  - compute_true.
  - compute_true.
  - vm_compute. reflexivity.
  - vm_compute. reflexivity.
Defined.

Lemma strip_string_plain_witness :
  Reference.strip_string "(hello world!)" ∅
  = Py.strip SameCheck.TRIM_CHARS "(hello world!)".
Proof.
  apply (strip_string_plain
           PYTHON_PRINTF_MATCH PHP_PRINTF_MATCH C_PRINTF_MATCH email_re);
    vm_compute; reflexivity.
Defined.

Lemma should_ignore_whole_url_witness :
  fst (Reference.should_ignore "HTTP://Example.com/Path?x=1" french 0 ∅) = true.
Proof.
  apply (should_ignore_whole_url
           PYTHON_PRINTF_MATCH PHP_PRINTF_MATCH C_PRINTF_MATCH email_re);
    vm_compute; reflexivity.
Defined.

(** ** Occurrences of a word after [replace] and [strip] *)

Module PyOccurs.
Import Py PyMore.

Lemma replace_from_cons old new c s :
  replace_from 0 old new (String c s) =
  if startswith old (String c s)
  then new +:+ replace_from (Nat.pred (String.length old)) old new s
  else String c (replace_from 0 old new s).
Proof. done. Qed.

Lemma contains_cons p c s :
  contains p (String c s) = startswith p (String c s) || contains p s.
Proof. done. Qed.

Lemma contains_nonempty a p : contains (String a p) EmptyString = false.
Proof. done. Qed.

(** A word without [c] that starts the result of replacing by [c] starts
    the subject too. *)
Lemma startswith_replace old c s :
  ∀ p, mem c p = false →
       startswith p (replace_from 0 old (String c EmptyString) s) = true →
       startswith p s = true.
Proof.
  induction s as [|d s IH]; intros [|a p] Hc; try done.
  rewrite replace_from_cons.
  cbn [mem] in Hc. apply orb_false_iff in Hc as [Hca Hcp].
  destruct (startswith old (String d s)).
  - rewrite app_cons, app_nil. cbn [startswith].
    intros [Ha _]%andb_true_iff. apply Ascii.eqb_eq in Ha as ->.
    by rewrite Ascii.eqb_refl in Hca.
  - cbn [startswith]. intros [Ha Hp]%andb_true_iff.
    rewrite Ha. simpl. by apply IH.
Qed.

(** Replacing by [c] makes no occurrence of a word without [c]. *)
Lemma contains_replace old c a p s :
  mem c (String a p) = false →
  ∀ k, contains (String a p) (replace_from k old (String c EmptyString) s) = true →
       contains (String a p) s = true.
Proof.
  intros Hc. induction s as [|d s IH]; intros k; [by destruct k|].
  rewrite contains_cons. destruct k as [|k].
  - destruct (startswith old (String d s)) eqn:Hm.
    + rewrite replace_from_cons, Hm.
      rewrite app_cons, app_nil, contains_cons.
      intros [H|H]%orb_true_iff.
      * cbn [startswith] in H. apply andb_true_iff in H as [Ha _].
        apply Ascii.eqb_eq in Ha as ->. cbn [mem] in Hc.
        by rewrite Ascii.eqb_refl in Hc.
      * by rewrite (IH _ H), orb_true_r.
    + assert (E : replace_from 0 old (String c EmptyString) (String d s)
                  = String d (replace_from 0 old (String c EmptyString) s))
        by by rewrite replace_from_cons, Hm.
      rewrite E, contains_cons. intros [H|H]%orb_true_iff.
      * rewrite <- E in H. by rewrite (startswith_replace _ _ _ _ Hc H).
      * by rewrite (IH _ H), orb_true_r.
  - cbn [replace_from]. intros H. by rewrite (IH _ H), orb_true_r.
Qed.

(** Replacing a word without [c] by [c] leaves no occurrence of it. *)
Lemma contains_replace_self a old c s :
  mem c (String a old) = false →
  ∀ k, contains (String a old)
         (replace_from k (String a old) (String c EmptyString) s) = false.
Proof.
  intros Hc. induction s as [|d s IH]; intros k; [by destruct k|].
  destruct k as [|k]; [|exact (IH k)].
  destruct (startswith (String a old) (String d s)) eqn:Hm.
  - rewrite replace_from_cons, Hm.
    rewrite app_cons, app_nil.
    rewrite contains_cons, IH, orb_false_r.
    cbn [startswith]. cbn [mem] in Hc. apply orb_false_iff in Hc as [Hca _].
    destruct (Ascii.eqb a c) eqn:E; [|done].
    apply Ascii.eqb_eq in E as ->. by rewrite Ascii.eqb_refl in Hca.
  - assert (E : replace_from 0 (String a old) (String c EmptyString) (String d s)
                = String d (replace_from 0 (String a old) (String c EmptyString) s))
      by by rewrite replace_from_cons, Hm.
    rewrite E, contains_cons, IH, orb_false_r.
    destruct (startswith (String a old)
                (String d (replace_from 0 (String a old) (String c EmptyString) s))) eqn:H;
      [|done].
    rewrite <- E in H. apply startswith_replace in H; [|done]. congruence.
Qed.

(** The strips make no occurrence. *)
Lemma contains_lstrip p chars s :
  contains p (lstrip chars s) = true → contains p s = true.
Proof.
  induction s as [|d s IH]; [done|]. cbn [lstrip].
  destruct (mem d chars); [|done].
  intros H. by rewrite contains_cons, (IH H), orb_true_r.
Qed.

Lemma startswith_rstrip chars s :
  ∀ p, startswith p (rstrip chars s) = true → startswith p s = true.
Proof.
  induction s as [|d s IH]; intros [|a p]; try done. cbn [rstrip].
  destruct (is_empty (rstrip chars s) && mem d chars); [done|].
  cbn [startswith]. intros [-> H]%andb_true_iff. simpl. by apply IH.
Qed.

Lemma contains_rstrip a p chars s :
  contains (String a p) (rstrip chars s) = true →
  contains (String a p) s = true.
Proof.
  induction s as [|d s IH]; [done|]. cbn [rstrip].
  destruct (is_empty (rstrip chars s) && mem d chars) eqn:E; [done|].
  rewrite !contains_cons. intros [H|H]%orb_true_iff.
  - assert (startswith (String a p) (rstrip chars (String d s)) = true) as H'.
    { cbn [rstrip]. by rewrite E. }
    by rewrite (startswith_rstrip _ _ _ H').
  - by rewrite (IH H), orb_true_r.
Qed.

Lemma contains_strip a p chars s :
  contains (String a p) (strip chars s) = true →
  contains (String a p) s = true.
Proof. unfold strip. intros H. by eapply contains_lstrip, contains_rstrip. Qed.

End PyOccurs.

(** ** [sub] returns what it is to return *)

Module ScanFacts.
Import Re ReSpec PyMore.

Lemma match_at_suffix p bos s rest :
  match_at p bos s = Some rest → ∃ m, s = m +:+ rest.
Proof.
  unfold match_at. intros (bos' & m & t & -> & [= <-])%ReMore.run_suffix.
  by exists m.
Qed.

Lemma app_same_length (m rest : string) :
  String.length (m +:+ rest) = String.length rest → m = EmptyString.
Proof. rewrite length_app. destruct m; simpl; [done|lia]. Qed.

Lemma sub_from_keep p fuel bos c s :
  match_at p bos (String c s) = None →
  sub_from (S fuel) p bos (String c s)
  = String c (sub_from (S fuel) p false s).
Proof.
  intros Hm. cbn [sub_from]. rewrite (ReFacts.search_unfold p bos), Hm.
  destruct (search p false s) as [[[pre from] rest]|]; [|done].
  destruct (String.length rest <? String.length from)%nat; [done|].
  by destruct rest.
Qed.

Lemma sub_from_at p fuel bos s rest :
  match_at p bos s = Some rest →
  sub_from (S fuel) p bos s
  = if (String.length rest <? String.length s)%nat
    then sub_from fuel p false rest
    else match rest with
         | EmptyString => EmptyString
         | String c rest' => String c (sub_from fuel p false rest')
         end.
Proof.
  intros Hm. cbn [sub_from]. rewrite ReFacts.search_unfold, Hm.
  destruct (String.length rest <? String.length s)%nat; [done|].
  by destruct rest.
Qed.

(** What [sub_from] returns is the subject without the matches found in
    the scan, whenever the fuel exceeds the length of the subject. *)
Lemma sub_from_deleted p :
  ∀ n s bos fuel,
    (String.length s ≤ n)%nat → (String.length s < fuel)%nat →
    deleted p bos s (sub_from fuel p bos s).
Proof.
  induction n as [|n IH]; intros s bos [|fuel] Hn Hf; try lia.
  - destruct s; [|simpl in Hn; lia].
    destruct (match_at p bos EmptyString) as [rest|] eqn:Hm.
    + rewrite (sub_from_at _ _ _ _ _ Hm).
      apply match_at_suffix in Hm as [m Hs].
      destruct m, rest; try done. simpl. constructor.
    + cbn [sub_from]. rewrite ReFacts.search_unfold, Hm. constructor.
  - destruct s as [|c s].
    { destruct (match_at p bos EmptyString) as [rest|] eqn:Hm.
      + rewrite (sub_from_at _ _ _ _ _ Hm).
        apply match_at_suffix in Hm as [m Hs].
        destruct m, rest; try done. simpl. constructor.
      + cbn [sub_from]. rewrite ReFacts.search_unfold, Hm. constructor. }
    simpl in Hn, Hf.
    destruct (match_at p bos (String c s)) as [rest|] eqn:Hm.
    + rewrite (sub_from_at _ _ _ _ _ Hm).
      pose proof Hm as [m Hs]%match_at_suffix.
      destruct (String.length rest <? String.length (String c s))%nat eqn:Hlt.
      * apply Nat.ltb_lt in Hlt. simpl in Hlt.
        rewrite Hs in Hm |- *. apply deleted_match; [done| |apply IH; lia].
        intros ->. rewrite app_nil in Hs. subst rest. simpl in Hlt. lia.
      * apply Nat.ltb_ge in Hlt.
        assert (m = EmptyString) as ->.
        { apply (app_same_length m rest).
          pose proof (f_equal String.length Hs) as Hl.
          rewrite length_app in Hl |- *. lia. }
        rewrite app_nil in Hs. subst rest.
        apply deleted_empty; [done|]. apply IH; lia.
    + rewrite (sub_from_keep _ _ _ _ _ Hm).
      apply deleted_keep; [done|]. apply IH; lia.
Qed.

Lemma sub_deleted p s : deleted p true s (sub p s).
Proof. unfold sub. apply (sub_from_deleted p (String.length s)); lia. Qed.

(** The scan leaves one result only. *)
Lemma deleted_inv p bos s out :
  deleted p bos s out →
  let keep :=
    match s with
    | EmptyString => out = EmptyString
    | String c s' => ∃ out', out = String c out' ∧ deleted p false s' out'
    end in
  match match_at p bos s with
  | None => keep
  | Some rest =>
      if (String.length rest <? String.length s)%nat
      then deleted p false rest out
      else keep
  end.
Proof.
  intros [bos'|bos' c s' out' Hm Hd|bos' m rest out' Hm Hne Hd
         |bos' c s' out' Hm Hd]; simpl.
  - by destruct (match_at p bos' EmptyString).
  - rewrite Hm. eauto.
  - rewrite Hm.
    assert ((String.length rest <? String.length (m +:+ rest))%nat = true)
      as ->; [|done].
    apply Nat.ltb_lt. rewrite length_app. destruct m; [done|simpl; lia].
  - rewrite Hm. rewrite Nat.ltb_irrefl. eauto.
Qed.

Lemma deleted_unique p :
  ∀ n s bos out1 out2,
    (String.length s ≤ n)%nat →
    deleted p bos s out1 → deleted p bos s out2 → out1 = out2.
Proof.
  induction n as [|n IH]; intros s bos out1 out2 Hn H1 H2;
    apply deleted_inv in H1, H2; simpl in H1, H2.
  - destruct s; [|simpl in Hn; lia].
    destruct (match_at p bos EmptyString) as [rest|]; simpl in *; congruence.
  - assert (Hkeep :
      match s with
      | EmptyString => out1 = EmptyString
      | String c s' => ∃ out', out1 = String c out' ∧ deleted p false s' out'
      end →
      match s with
      | EmptyString => out2 = EmptyString
      | String c s' => ∃ out', out2 = String c out' ∧ deleted p false s' out'
      end → out1 = out2).
    { destruct s as [|c s]; [congruence|].
      intros (o1 & -> & K1) (o2 & -> & K2). f_equal.
      apply (IH s false); [simpl in Hn; lia|done|done]. }
    destruct (match_at p bos s) as [rest|]; [|by apply Hkeep].
    destruct (String.length rest <? String.length s)%nat eqn:Hlt;
      [|by apply Hkeep].
    apply Nat.ltb_lt in Hlt. apply (IH rest false); [lia|done|done].
Qed.

End ScanFacts.

(** ** [unicode.isupper] *)

Module UnicodeFacts.
Import Unicode.

Lemma isupper_loop_spec db :
  ∀ (s : list N) cased,
    isupper_loop db cased s = true ↔
    (cased = true ∨ ∃ ch, ch ∈ s ∧ is_upper db ch = true)
    ∧ (∀ ch, ch ∈ s → is_lower db ch = false ∧ is_title db ch = false).
Proof.
  induction s as [|ch s IH]; intros cased; simpl.
  - split.
    + intros ->. split; [by left|]. by intros ch ?%elem_of_nil.
    + intros [[->|(ch & ?%elem_of_nil & _)] _]; done.
  - destruct (is_lower db ch || is_title db ch) eqn:E.
    + split; [done|]. intros [_ H].
      destruct (H ch) as [Hl Ht]; [by left|]. by rewrite Hl, Ht in E.
    + apply orb_false_iff in E as [Hl Ht]. rewrite IH. split.
      * intros [Hc Hall]. split.
        -- destruct Hc as [[->|Hu]%orb_true_iff|(c & Hin & Hu)]; [by left|..].
           ++ right. exists ch. split; [by left|done].
           ++ right. exists c. split; [by right|done].
        -- intros c [->|Hin]%elem_of_cons; [done|by apply Hall].
      * intros [Hc Hall]. split.
        -- destruct Hc as [->|(c & [->|Hin]%elem_of_cons & Hu)]; [by left|..].
           ++ left. by rewrite Hu, orb_true_r.
           ++ right. by exists c.
        -- intros c Hin. apply Hall. by right.
Qed.

(** Below 256, where no title-case letter lies, [unicode.isupper] is
    [Py.isupper]. *)
Lemma isupper_loop_codes db :
  below_256 db →
  ∀ s cased,
    isupper_loop db cased (codes s)
    = negb (Py.any Chars.is_lower s) && (cased || Py.any Chars.is_upper s).
Proof.
  intros Hdb. induction s as [|c s IH]; intros cased; simpl.
  - by rewrite orb_false_r.
  - destruct (Hdb c) as (-> & -> & ->). rewrite orb_false_r.
    destruct (Chars.is_lower c); simpl; [done|].
    by rewrite IH, orb_assoc.
Qed.

Lemma reference_below_256 : below_256 reference.
Proof.
  intros c. unfold reference. simpl.
  assert (H : Needs.forall_ascii (fun c =>
    Bool.eqb ((Chars.code c <? 256)%N && Chars.is_upper (ascii_of_N (Chars.code c)))
             (Chars.is_upper c)
    && Bool.eqb ((Chars.code c <? 256)%N
                 && Chars.is_lower (ascii_of_N (Chars.code c)))
                (Chars.is_lower c)
    && negb (existsb (N.eqb (Chars.code c)) title_case)) = true)
    by by vm_compute.
  pose proof (ReMore.forall_ascii_spec _ H c) as Hc. simpl in Hc.
  apply andb_true_iff in Hc as [[Hu Hl]%andb_true_iff Ht].
  apply Bool.eqb_prop in Hu, Hl. apply negb_true_iff in Ht.
  by rewrite Hu, Hl, Ht.
Qed.

End UnicodeFacts.

(** ** The residue of [strip_string], the format step and the upper-case
    test *)

Lemma free_of_weaken bad bad' s :
  (∀ c, Py.mem c bad' = true → Py.mem c bad = true) →
  Needs.free_of bad s = true → Needs.free_of bad' s = true.
Proof.
  unfold Needs.free_of. rewrite !negb_true_iff. intros Hsub Hs.
  destruct (Py.any (fun c => Py.mem c bad') s) eqn:E; [|done].
  by rewrite (PyMore.any_mono _ (fun c => Py.mem c bad) s Hsub E) in Hs.
Qed.

Lemma free_of_part bad bad' s :
  Needs.forall_ascii (fun c => implb (Py.mem c bad') (Py.mem c bad)) = true →
  Needs.free_of bad s = true → Needs.free_of bad' s = true.
Proof.
  intros H. apply free_of_weaken. intros c Hc.
  pose proof (ReMore.forall_ascii_spec _ H c) as Hi. simpl in Hi.
  by rewrite Hc in Hi.
Qed.

(** No entity is left by [replace_entities], nor by the strip after it. *)
Lemma replace_entities_gone s :
  Py.contains "&nbsp;" (SameCheck.replace_entities s) = false
  ∧ Py.contains "&rsaquo;" (SameCheck.replace_entities s) = false
  ∧ Py.contains "&ldquo;" (SameCheck.replace_entities s) = false
  ∧ Py.contains "&rdquo;" (SameCheck.replace_entities s) = false.
Proof.
  unfold SameCheck.replace_entities, Py.replace.
  unfold double_quote.
  repeat split.
  - match goal with |- ?x = false => destruct x eqn:H; [|done] end.
    do 3 (apply PyOccurs.contains_replace in H; [|done]).
    by rewrite PyOccurs.contains_replace_self in H.
  - match goal with |- ?x = false => destruct x eqn:H; [|done] end.
    do 2 (apply PyOccurs.contains_replace in H; [|done]).
    by rewrite PyOccurs.contains_replace_self in H.
  - match goal with |- ?x = false => destruct x eqn:H; [|done] end.
    apply PyOccurs.contains_replace in H; [|done].
    by rewrite PyOccurs.contains_replace_self in H.
  - by rewrite PyOccurs.contains_replace_self.
Qed.

Section Residue.

Variables PYTHON_PRINTF_MATCH PHP_PRINTF_MATCH C_PRINTF_MATCH : pattern.
Variable email_re : pattern.

Abbreviation format_regex :=
  (SameCheck.format_regex PYTHON_PRINTF_MATCH PHP_PRINTF_MATCH C_PRINTF_MATCH).
Abbreviation strip_format :=
  (SameCheck.strip_format PYTHON_PRINTF_MATCH PHP_PRINTF_MATCH C_PRINTF_MATCH).
Abbreviation strip_string :=
  (SameCheck.strip_string
     PYTHON_PRINTF_MATCH PHP_PRINTF_MATCH C_PRINTF_MATCH email_re).
Abbreviation should_ignore :=
  (SameCheck.should_ignore
     PYTHON_PRINTF_MATCH PHP_PRINTF_MATCH C_PRINTF_MATCH email_re).
Abbreviation check_single :=
  (SameCheck.check_single
     PYTHON_PRINTF_MATCH PHP_PRINTF_MATCH C_PRINTF_MATCH email_re).

(** What [strip_string] returns holds no entity, no [#], and none of the
    characters of [bad] that the message does not hold. *)
Lemma residue_entity_free msg flags a e :
  Py.contains (String a e) (SameCheck.replace_entities
    (Re.sub DOMAIN_RE (Re.sub HASH_RE (Re.sub URL_RE
       (Re.sub email_re (strip_format msg flags)))))) = false →
  Py.contains (String a e) (strip_string msg flags) = false.
Proof.
  intros H. unfold SameCheck.strip_string.
  match goal with |- ?x = false => destruct x eqn:E; [|done] end.
  apply PyOccurs.contains_strip in E. congruence.
Qed.

Lemma residue_hash_free msg flags :
  Needs.free_of "#" (strip_string msg flags) = true.
Proof.
  unfold Needs.free_of. apply negb_true_iff.
  match goal with |- ?x = false => destruct x eqn:H; [|done] end.
  unfold SameCheck.strip_string in H.
  apply PyMore.strip_any, replace_entities_any, ReMore.sub_any in H;
    [|done..].
  apply PyFacts.any_mem in H as (c & Hc & Hm).
  simpl in Hm. rewrite orb_false_r in Hm. apply Ascii.eqb_eq in Hm as ->.
  by rewrite ReMore.sub_hash in Hc.
Qed.

Lemma residue_free_of bad msg flags :
  Py.mem " " bad = false → Py.mem "034" bad = false →
  Needs.free_of bad msg = true →
  Needs.free_of bad (strip_string msg flags) = true.
Proof.
  unfold Needs.free_of. rewrite !negb_true_iff. intros Hsp Hdq Hm.
  match goal with |- ?x = false => destruct x eqn:H; [|done] end.
  apply (strip_string_any _ _ _ _ (fun c => Py.mem c bad)) in H; [|done..].
  congruence.
Qed.

(** C3 (amended): for a message without any of the characters [%], [@],
    [:] and [.], which the format, address, URL and domain patterns
    cannot match without, stripping the residue again returns the
    residue. The first two hypotheses say that of the imported matchers:
    the format step leaves a string without [%] as it is, the address
    step a string without [@]. *)
Theorem strip_string_idempotent_plain x flags :
  (∀ s, Needs.free_of "%" s = true → strip_format s flags = s) →
  (∀ s, Needs.free_of "@" s = true → Re.sub email_re s = s) →
  Needs.free_of "%@:." x = true →
  strip_string (strip_string x flags) flags = strip_string x flags.
Proof.
  intros Hfmt Hmail Hx.
  assert (Hy : Needs.free_of "%@:." (strip_string x flags) = true)
    by by apply residue_free_of.
  pose proof (residue_hash_free x flags) as Hh.
  destruct (replace_entities_gone
              (Re.sub DOMAIN_RE (Re.sub HASH_RE (Re.sub URL_RE
                 (Re.sub email_re (strip_format x flags))))))
    as (E1%residue_entity_free & E2%residue_entity_free
        & E3%residue_entity_free & E4%residue_entity_free).
  assert (Hidem : Py.strip SameCheck.TRIM_CHARS (strip_string x flags)
                  = strip_string x flags)
    by (unfold SameCheck.strip_string; apply PyFacts.strip_idem).
  revert Hy Hh E1 E2 E3 E4 Hidem.
  generalize (strip_string x flags) as y. intros y Hy Hh E1 E2 E3 E4 Hidem.
  unfold SameCheck.strip_string.
  rewrite Hfmt by (revert Hy; by apply free_of_part).
  rewrite Hmail by (revert Hy; by apply free_of_part).
  rewrite (ReMore.sub_demands URL_RE ":")
    by (done || (revert Hy; by apply free_of_part)).
  rewrite (ReMore.sub_demands HASH_RE "#") by done.
  rewrite (ReMore.sub_demands DOMAIN_RE ".")
    by (done || (revert Hy; by apply free_of_part)).
  unfold SameCheck.replace_entities.
  by rewrite (PyFacts.replace_absent _ _ _ E1), (PyFacts.replace_absent _ _ _ E2),
    (PyFacts.replace_absent _ _ _ E3), (PyFacts.replace_absent _ _ _ E4).
Qed.

(** C6: [strip_format] returns the message without the matches of exactly
    one placeholder matcher, as [regex.sub('', msg)] does: the leftmost
    non-overlapping matches are deleted. The matcher is the Python one if
    the flags hold "python-format", else the PHP one if they hold
    "php-format", else the C one if they hold "c-format"; with none of
    the three flags the message is returned unchanged. *)
Theorem strip_format_priority msg (flags : gset string) :
  ("python-format" ∈ flags →
   strip_format msg flags = Re.sub PYTHON_PRINTF_MATCH msg
   ∧ ReSpec.removes PYTHON_PRINTF_MATCH msg (strip_format msg flags))
  ∧ ("python-format" ∉ flags → "php-format" ∈ flags →
     strip_format msg flags = Re.sub PHP_PRINTF_MATCH msg
     ∧ ReSpec.removes PHP_PRINTF_MATCH msg (strip_format msg flags))
  ∧ ("python-format" ∉ flags → "php-format" ∉ flags → "c-format" ∈ flags →
     strip_format msg flags = Re.sub C_PRINTF_MATCH msg
     ∧ ReSpec.removes C_PRINTF_MATCH msg (strip_format msg flags))
  ∧ ("python-format" ∉ flags → "php-format" ∉ flags → "c-format" ∉ flags →
     strip_format msg flags = msg).
Proof.
  assert (Hsub : ∀ regex,
    Re.sub regex msg = Re.sub regex msg
    ∧ ReSpec.removes regex msg (Re.sub regex msg)).
  { intros regex. split; [done|]. split; [apply ScanFacts.sub_deleted|].
    intros out' H.
    eapply (ScanFacts.deleted_unique regex (String.length msg));
      [done|exact H|apply ScanFacts.sub_deleted]. }
  unfold SameCheck.strip_format, SameCheck.format_regex.
  split; [|split; [|split]].
  - intros H. rewrite bool_decide_eq_true_2 by done. apply Hsub.
  - intros H1 H2. rewrite bool_decide_eq_false_2 by done.
    rewrite bool_decide_eq_true_2 by done. apply Hsub.
  - intros H1 H2 H3. rewrite !bool_decide_eq_false_2 by done.
    rewrite bool_decide_eq_true_2 by done. apply Hsub.
  - intros H1 H2 H3. by rewrite !bool_decide_eq_false_2 by done.
Qed.

(** C9 (amended): [isupper] holds exactly of the strings with an
    upper-case character and no lower-case or title-case one, whatever
    the code points and the database; on the strings of this development
    it is [Py.isupper]. When both strings are upper case [check_single]
    answers [False] without looking at the cache, as for "ABC 123" and
    "OK!"; and when they are not both upper case, as when one has no
    upper-case character ("123"), the answer is left to the tests that
    follow: in a unit that is not English, for strings not both of at
    most one character, it is made with [should_ignore]. *)
Theorem isupper_shortcut :
  (∀ db (s : list N),
     Unicode.isupper db s = true ↔
     (∃ ch, ch ∈ s ∧ Unicode.is_upper db ch = true)
     ∧ (∀ ch, ch ∈ s →
          Unicode.is_lower db ch = false ∧ Unicode.is_title db ch = false))
  ∧ (∀ db, Unicode.below_256 db →
       ∀ s, Py.isupper s = Unicode.isupper db (Unicode.codes s))
  ∧ (∀ source target unit cache_slot cache,
       Py.isupper source = true → Py.isupper target = true →
       check_single source target unit cache_slot cache = (false, cache))
  ∧ (∀ source target unit cache_slot cache,
       is_language unit ["en"] = false →
       (String.length source <=? 1)%nat && (String.length target <=? 1)%nat
         = false →
       Py.isupper source && Py.isupper target = false →
       check_single source target unit cache_slot cache
       = (negb (fst (should_ignore source unit cache_slot cache))
            && bool_decide (source = target),
          snd (should_ignore source unit cache_slot cache)))
  ∧ (∀ s, Py.any Chars.is_upper s = false → Py.isupper s = false)
  ∧ Py.isupper "ABC 123" = true
  ∧ Py.isupper "OK!" = true
  ∧ Py.isupper "123" = false.
Proof.
  split; [|split; [|split; [|split; [|split; [|split; [|split]]]]]].
  - intros db s. unfold Unicode.isupper.
    rewrite UnicodeFacts.isupper_loop_spec. split.
    + intros [[?|?] ?]; done.
    + intros [? ?]. split; [by right|done].
  - intros db Hdb s. unfold Unicode.isupper, Py.isupper.
    by rewrite UnicodeFacts.isupper_loop_codes.
  - intros source target unit cache_slot cache Hs Ht.
    unfold SameCheck.check_single. rewrite Hs, Ht.
    destruct (is_language unit ["en"]); [done|]. by destruct (_ && _).
  - intros source target unit cache_slot cache Hen Hlen Hup.
    unfold SameCheck.check_single. rewrite Hen, Hlen, Hup.
    by destruct (should_ignore source unit cache_slot cache) as [[] ?].
  - intros s Hs. unfold Py.isupper. by rewrite Hs, andb_false_r.
  - reflexivity.
  - reflexivity.
  - reflexivity.
Qed.

End Residue.

(** ** The residue, the format step and the upper-case test on concrete
    inputs *)

(** The reference matchers cannot match without a [%], or without an
    [@]. *)
Lemma reference_format_needs_percent flags s :
  Needs.free_of "%" s = true →
  SameCheck.strip_format PYTHON_PRINTF_MATCH PHP_PRINTF_MATCH C_PRINTF_MATCH
    s flags = s.
Proof.
  intros Hs. unfold SameCheck.strip_format, SameCheck.format_regex.
  repeat case_bool_decide; try done;
    by apply (ReMore.sub_demands _ "%"); [vm_compute|].
Qed.

Lemma reference_email_needs_at s :
  Needs.free_of "@" s = true → Re.sub email_re s = s.
Proof. intros Hs. by apply (ReMore.sub_demands _ "@"); [vm_compute|]. Qed.

Lemma strip_string_idempotent_plain_witness :
  Reference.strip_string
    (Reference.strip_string "(see #weblate &nbsp;-&rdquo;today&ldquo;!)"
       {["python-format"]})
    {["python-format"]}
  = Reference.strip_string "(see #weblate &nbsp;-&rdquo;today&ldquo;!)"
      {["python-format"]}.
Proof.
  apply (strip_string_idempotent_plain
           PYTHON_PRINTF_MATCH PHP_PRINTF_MATCH C_PRINTF_MATCH email_re).
  - intros s. apply reference_format_needs_percent.
  - apply reference_email_needs_at.
  - vm_compute. reflexivity.
Defined.

Lemma strip_format_priority_witness :
  (SameCheck.strip_format PYTHON_PRINTF_MATCH PHP_PRINTF_MATCH C_PRINTF_MATCH
     "%(n)s of %1$d" {["python-format"; "php-format"; "c-format"]}
   = " of $d"
   ∧ ReSpec.removes PYTHON_PRINTF_MATCH "%(n)s of %1$d" " of $d")
  ∧ (SameCheck.strip_format PYTHON_PRINTF_MATCH PHP_PRINTF_MATCH C_PRINTF_MATCH
       "%(n)s of %1$d" {["php-format"; "c-format"]}
     = "%(n)s of "
     ∧ ReSpec.removes PHP_PRINTF_MATCH "%(n)s of %1$d" "%(n)s of ")
  ∧ (SameCheck.strip_format PYTHON_PRINTF_MATCH PHP_PRINTF_MATCH C_PRINTF_MATCH
       "%(n)s of %1$d" {["c-format"]}
     = "%(n)s of $d"
     ∧ ReSpec.removes C_PRINTF_MATCH "%(n)s of %1$d" "%(n)s of $d")
  ∧ SameCheck.strip_format PYTHON_PRINTF_MATCH PHP_PRINTF_MATCH C_PRINTF_MATCH
      "%(n)s of %1$d" {["fuzzy"]}
    = "%(n)s of %1$d".
Proof.
  split; [|split; [|split]].
  - destruct (proj1 (strip_format_priority PYTHON_PRINTF_MATCH PHP_PRINTF_MATCH
                       C_PRINTF_MATCH "%(n)s of %1$d"
                       {["python-format"; "php-format"; "c-format"]}))
      as [Heq Hrem]; [compute_true|].
    assert (E : Re.sub PYTHON_PRINTF_MATCH "%(n)s of %1$d" = " of $d")
      by (vm_compute; reflexivity).
    rewrite Heq, E in Hrem. rewrite Heq, E. by split.
  - destruct (proj1 (proj2 (strip_format_priority PYTHON_PRINTF_MATCH
                              PHP_PRINTF_MATCH C_PRINTF_MATCH "%(n)s of %1$d"
                              {["php-format"; "c-format"]})))
      as [Heq Hrem]; [compute_true..|].
    assert (E : Re.sub PHP_PRINTF_MATCH "%(n)s of %1$d" = "%(n)s of ")
      by (vm_compute; reflexivity).
    rewrite Heq, E in Hrem. rewrite Heq, E. by split.
  - destruct (proj1 (proj2 (proj2 (strip_format_priority PYTHON_PRINTF_MATCH
                                     PHP_PRINTF_MATCH C_PRINTF_MATCH
                                     "%(n)s of %1$d" {["c-format"]}))))
      as [Heq Hrem]; [compute_true..|].
    assert (E : Re.sub C_PRINTF_MATCH "%(n)s of %1$d" = "%(n)s of $d")
      by (vm_compute; reflexivity).
    rewrite Heq, E in Hrem. rewrite Heq, E. by split.
  - apply (strip_format_priority PYTHON_PRINTF_MATCH PHP_PRINTF_MATCH
             C_PRINTF_MATCH "%(n)s of %1$d" {["fuzzy"]});
      compute_true.
Defined.

(** C9 (as stated) fails: U+01C5 is a title-case letter, so the string of
    U+01C5 and "A" holds cased characters, none of them lower case, and
    yet it is not upper case. *)
Lemma isupper_title_case :
  (∃ ch, ch ∈ [453; 65]%N ∧ Unicode.is_cased Unicode.reference ch = true)
  ∧ (∀ ch, ch ∈ [453; 65]%N →
       Unicode.is_cased Unicode.reference ch = true →
       Unicode.is_lower Unicode.reference ch = false)
  ∧ Unicode.isupper Unicode.reference [453; 65]%N = false
  ∧ ¬ (Unicode.isupper Unicode.reference [453; 65]%N = true ↔
       (∃ ch, ch ∈ [453; 65]%N ∧ Unicode.is_cased Unicode.reference ch = true)
       ∧ (∀ ch, ch ∈ [453; 65]%N →
            Unicode.is_cased Unicode.reference ch = true →
            Unicode.is_lower Unicode.reference ch = false)).
Proof.
  assert (H1 : ∃ ch, ch ∈ [453; 65]%N
                     ∧ Unicode.is_cased Unicode.reference ch = true).
  { exists 453%N. split; [by left|by vm_compute]. }
  assert (H2 : ∀ ch, ch ∈ [453; 65]%N →
                 Unicode.is_cased Unicode.reference ch = true →
                 Unicode.is_lower Unicode.reference ch = false).
  { intros ch [->|[->|?%elem_of_nil]%elem_of_cons]%elem_of_cons _;
      [by vm_compute..|done]. }
  repeat split; [done..|by vm_compute|].
  intros [_ H]. by specialize (H (conj H1 H2)).
Qed.

Lemma isupper_shortcut_witness :
  Py.isupper "OK!" = Unicode.isupper Unicode.reference (Unicode.codes "OK!")
  ∧ Reference.check_single "ABC 123" "OK!" french 0 ∅ = (false, ∅)
  ∧ Reference.check_single "123" "123" french 0 ∅ = (false, {[0 := true]})
  ∧ Reference.check_single "Hello" "Hello" french 0 ∅ = (true, {[0 := false]}).
Proof.
  pose proof (isupper_shortcut
                PYTHON_PRINTF_MATCH PHP_PRINTF_MATCH C_PRINTF_MATCH email_re)
    as (_ & Hb & Hup & Hno & _).
  split; [|split; [|split]].
  - apply Hb. apply UnicodeFacts.reference_below_256.
  - apply Hup; vm_compute; reflexivity.
  - rewrite Hno; vm_compute; reflexivity.
  - rewrite Hno; vm_compute; reflexivity.
Defined.
